(** * Ingestion and retrieval pipeline of streamlit_demo

    A shallow embedding of the four Python sources

      - [app/crawler.py]            ([scrape_with_content])
      - [scrape_site_script.py]     ([scrape_site] and its helpers)
      - [app/chunker.py]            ([chunk_content])
      - [app/streamlit-chat.py]     ([get_index_name], [load_chunks],
                                    [create_vector_store],
                                    [load_or_create_vector_store] and the
                                    delete branch of [main])

    A Python [str] is held as the [string] of its UTF-8 bytes, a set of
    strings as a [gset string], the insertion-ordered dicts that are
    written to and read from JSON as association lists, module globals
    as fields of an explicit state record, and a raised exception as an
    outcome of its own.  Selenium, BeautifulSoup, urllib, tldextract,
    langchain's splitter and the embedding model are collaborators: the
    code is modelled against what they return. *)

From Stdlib Require Import ZArith Ascii String List Lia.
From stdpp Require Import base decidable option list gmap sets strings pretty.

Local Open Scope string_scope.
Local Open Scope Z_scope.
Local Open Scope list_scope.

(** ** Python-level vocabulary *)

(** The exception classes that the modelled code can meet.  All of them
    derive from [Exception], so an [except Exception] clause catches every
    one of them. *)
Inductive exn : Type :=
  | TypeError                (* call with the wrong number of arguments *)
  | WebDriverException       (* [driver.get] / [driver.page_source] failed *)
  | ParserRejectedMarkup     (* [BeautifulSoup(...)] refused the markup *)
  | FileNotFoundError
  | FileExistsError
  | IsADirectoryError
  | NotADirectoryError       (* a regular file where a directory is needed *)
  | JSONDecodeError
  | AttributeError           (* a method the loaded JSON value lacks *)
  | ValueError               (* the splitter refuses its sizes *)
  | IndexError               (* [embeddings[0]] of an empty list *)
  | UnpicklingError          (* [pickle.load] on what is no pickle *)
  | RuntimeError.

(** How a call ends: it returns, it raises, or the model ran out of fuel
    (which stands for a call that has not ended yet). The state reached is
    kept in both of the first two cases, since the globals survive an
    exception. *)
Inductive outcome (St : Type) : Type :=
  | Returned (st : St)
  | Raised (e : exn) (st : St)
  | OutOfFuel.
Arguments Returned {St} st.
Arguments Raised {St} e st.
Arguments OutOfFuel {St}.

Definition final_state {St : Type} (o : outcome St) : option St :=
  match o with
  | Returned st => Some st
  | Raised _ st => Some st
  | OutOfFuel => None
  end.

Definition terminated {St : Type} (o : outcome St) : Prop :=
  o <> OutOfFuel.

(** [s.startswith(p)] *)
Definition startswith (s p : string) : bool := String.prefix p s.

(** [d[k] = v] on an insertion-ordered dict: an existing key keeps its
    position, a new key goes last. *)
Fixpoint dict_set (k v : string) (d : list (string * string))
  : list (string * string) :=
  match d with
  | [] => [(k, v)]
  | (k', v') :: d' =>
      if decide (k = k') then (k, v) :: d' else (k', v') :: dict_set k v d'
  end.

(** ** The web as the crawlers see it *)

(** What [BeautifulSoup(page_source, 'html.parser')] exposes to the two
    crawlers. *)
Record soup : Type := Soup {
  (* [(el['data-link'], el.get_text(separator="\n", strip=True))] for
     [el] in [soup.find_all(attrs={'data-link': True})], document order *)
  data_link_elements : list (string * string);
  (* [a_tag['href']] for [a_tag] in [soup.find_all('a', href=True)] *)
  a_hrefs : list string;
  (* [soup.get_text(separator="\n", strip=True)] *)
  page_text : string
}.

(** Loading one URL: the driver fails, or it yields a source the parser
    rejects, or a parsed document. *)
Inductive page : Type :=
  | FetchFails
  | ParseFails
  | Parsed (s : soup).

(** The collaborators from selenium, urllib and tldextract. *)
Record world : Type := World {
  driver_get : string -> page;
  urljoin : string -> string -> string;      (* urllib.parse.urljoin *)
  netloc : string -> string;                 (* urlparse(u).netloc *)
  scheme : string -> string;                 (* urlparse(u).scheme *)
  tld_domain : string -> string;             (* tldextract.extract(u).domain *)
  tld_suffix : string -> string              (* tldextract.extract(u).suffix *)
}.

(** A [for] loop over links whose body calls [visit] on the links that
    pass [follow]; an exception raised by the body leaves the loop. *)
Fixpoint for_links {St : Type} (follow : string -> bool)
    (visit : string -> St -> outcome St) (links : list string) (st : St)
  : outcome St :=
  match links with
  | [] => Returned st
  | l :: rest =>
      if follow l then
        match visit l st with
        | Returned st' => for_links follow visit rest st'
        | Raised e st' => Raised e st'
        | OutOfFuel => OutOfFuel
        end
      else for_links follow visit rest st
  end.

(** ** app/crawler.py *)

Module Crawler.

(** The module globals [visited] and [data_content]; [fetched] is a ghost
    log of the URLs handed to [driver.get], oldest first. *)
Record crawl_state : Type := CrawlState {
  visited : gset string;
  data_content : list (string * string);
  fetched : list string
}.

Definition crawl_initial : crawl_state := CrawlState ∅ [] [].

(** A positional argument at a call site of [scrape_with_content]. *)
Inductive pyval : Type :=
  | VStr (s : string)
  | VDriver.

Section WithWorld.
Context (W : world).

(** Lines 24-30: the loop over the elements carrying [data-link]. *)
Definition store_element (base_url : string) (d : list (string * string))
    (el : string * string) : list (string * string) :=
  let data_link := fst el in
  let data_link :=
    if startswith data_link "#" then urljoin W base_url data_link
    else data_link in
  dict_set data_link (snd el) d.

Definition store_elements (base_url : string) (els : list (string * string))
    (d : list (string * string)) : list (string * string) :=
  fold_left (store_element base_url) els d.

(** [scrape_with_content], called with the positional arguments [args].
    The function is declared with two parameters [(base_url, driver)];
    a call with another number of arguments raises [TypeError] before the
    body runs.  The recursive call on line 37 passes three. *)
Fixpoint scrape_with_content (fuel : nat) (args : list pyval) (st : crawl_state)
  : outcome crawl_state :=
  match fuel with
  | O => OutOfFuel
  | S fuel' =>
    match args with
    | [VStr base_url; VDriver] =>
      if decide (base_url ∈ visited st) then Returned st
      else
        let st := CrawlState ({[base_url]} ∪ visited st) (data_content st)
                        (fetched st) in
        (* try: *)
        let body :=
          let st := CrawlState (visited st) (data_content st)
                          (fetched st ++ [base_url]) in
          match driver_get W base_url with
          | FetchFails => Raised WebDriverException st
          | ParseFails => Raised ParserRejectedMarkup st
          | Parsed sp =>
              let st := CrawlState (visited st)
                          (store_elements base_url (data_link_elements sp)
                                          (data_content st))
                          (fetched st) in
              for_links
                (fun href =>
                   let full_url := urljoin W base_url href in
                   bool_decide (netloc W full_url = netloc W base_url))
                (fun href st =>
                   let full_url := urljoin W base_url href in
                   scrape_with_content fuel'
                     [VStr full_url; VStr base_url; VDriver] st)
                (a_hrefs sp) st
          end in
        (* except Exception as e: print(...) *)
        match body with
        | Returned st' => Returned st'
        | Raised _ st' => Returned st'
        | OutOfFuel => OutOfFuel
        end
    | _ => Raised TypeError st
    end
  end.

End WithWorld.
End Crawler.

(** ** scrape_site_script.py *)

Module SiteScript.

(** The module global [visited_urls]; [fetched_urls] is the ghost log of the
    URLs handed to [driver.get]; [saved] lists, oldest first, the
    [(url, page_text)] pairs that [save_page_text] wrote to a page file
    and [save_to_combined_file] appended to the combined file. *)
Record site_state : Type := SiteState {
  visited_urls : gset string;
  fetched_urls : list string;
  saved : list (string * string)
}.

Definition site_initial : site_state := SiteState ∅ [] [].

Section WithWorld.
Context (W : world).

(** [parsed.scheme in {"http", "https", ""}] *)
Definition is_valid_url (href : string) : bool :=
  let s := scheme W href in
  bool_decide (s = "http") || bool_decide (s = "https") || bool_decide (s = "").

Definition is_same_domain (url domain : string) : bool :=
  bool_decide (tld_domain W domain = tld_domain W url)
  && bool_decide (tld_suffix W domain = tld_suffix W url).

(** [scrape_site(driver, base_url, domain, output_dir, combined_file,
    max_depth, current_depth)]; the two file names are constant along the
    recursion and left out.  [urljoin] and the writes of [save_page_text]
    and [save_to_combined_file] are taken to succeed: what they can raise
    outside the [try] (on a malformed link, on a write that fails) is not
    represented. *)
Fixpoint scrape_site (fuel : nat) (base_url domain : string)
    (max_depth current_depth : Z) (st : site_state) : outcome site_state :=
  match fuel with
  | O => OutOfFuel
  | S fuel' =>
    if bool_decide (base_url ∈ visited_urls st) || (max_depth <? current_depth)
    then Returned st
    else
      let st := SiteState ({[base_url]} ∪ visited_urls st) (fetched_urls st ++ [base_url])
                      (saved st) in
      match driver_get W base_url with
      | FetchFails =>
          (* except Exception as e: print(...); return *)
          Returned st
      | ParseFails =>
          (* BeautifulSoup(page_source, "html.parser") is outside the try *)
          Raised ParserRejectedMarkup st
      | Parsed sp =>
          let st := SiteState (visited_urls st) (fetched_urls st)
                          (saved st ++ [(base_url, page_text sp)]) in
          for_links
            (fun href =>
               let full_url := urljoin W base_url href in
               is_valid_url full_url && is_same_domain full_url domain)
            (fun href st =>
               let full_url := urljoin W base_url href in
               scrape_site fuel' full_url domain max_depth (current_depth + 1) st)
            (a_hrefs sp) st
      end
  end.

End WithWorld.
End SiteScript.

(** ** hashlib.md5

    [hashlib.md5(data).hexdigest()] after RFC 1321, on bytes held as [Z]
    with the 32-bit wrap-around written out. *)

Module MD5.

Definition mask32 (x : Z) : Z := Z.land x 0xffffffff.
Definition add32 (x y : Z) : Z := mask32 (x + y).
Definition not32 (x : Z) : Z := Z.lxor x 0xffffffff.
Definition rotl32 (x : Z) (c : Z) : Z :=
  Z.lor (mask32 (Z.shiftl x c)) (Z.shiftr x (32 - c)).

Definition K : list Z :=
  [ 0xd76aa478; 0xe8c7b756; 0x242070db; 0xc1bdceee;
    0xf57c0faf; 0x4787c62a; 0xa8304613; 0xfd469501;
    0x698098d8; 0x8b44f7af; 0xffff5bb1; 0x895cd7be;
    0x6b901122; 0xfd987193; 0xa679438e; 0x49b40821;
    0xf61e2562; 0xc040b340; 0x265e5a51; 0xe9b6c7aa;
    0xd62f105d; 0x02441453; 0xd8a1e681; 0xe7d3fbc8;
    0x21e1cde6; 0xc33707d6; 0xf4d50d87; 0x455a14ed;
    0xa9e3e905; 0xfcefa3f8; 0x676f02d9; 0x8d2a4c8a;
    0xfffa3942; 0x8771f681; 0x6d9d6122; 0xfde5380c;
    0xa4beea44; 0x4bdecfa9; 0xf6bb4b60; 0xbebfbc70;
    0x289b7ec6; 0xeaa127fa; 0xd4ef3085; 0x04881d05;
    0xd9d4d039; 0xe6db99e5; 0x1fa27cf8; 0xc4ac5665;
    0xf4292244; 0x432aff97; 0xab9423a7; 0xfc93a039;
    0x655b59c3; 0x8f0ccc92; 0xffeff47d; 0x85845dd1;
    0x6fa87e4f; 0xfe2ce6e0; 0xa3014314; 0x4e0811a1;
    0xf7537e82; 0xbd3af235; 0x2ad7d2bb; 0xeb86d391 ].

Definition shifts : list Z :=
  [ 7; 12; 17; 22; 7; 12; 17; 22; 7; 12; 17; 22; 7; 12; 17; 22;
    5;  9; 14; 20; 5;  9; 14; 20; 5;  9; 14; 20; 5;  9; 14; 20;
    4; 11; 16; 23; 4; 11; 16; 23; 4; 11; 16; 23; 4; 11; 16; 23;
    6; 10; 15; 21; 6; 10; 15; 21; 6; 10; 15; 21; 6; 10; 15; 21 ].

(** Little-endian bytes of the low [n] bytes of [x], and back. *)
Fixpoint le_bytes (n : nat) (x : Z) : list Z :=
  match n with
  | O => []
  | S n' => Z.land x 0xff :: le_bytes n' (Z.shiftr x 8)
  end.

Fixpoint le_word (bs : list Z) : Z :=
  match bs with
  | [] => 0
  | b :: bs' => Z.lor b (Z.shiftl (le_word bs') 8)
  end.

(** The message followed by 0x80, zeros up to 56 modulo 64, and the bit
    length on eight bytes. *)
Definition pad (msg : list Z) : list Z :=
  let len := Z.of_nat (length msg) in
  let zeros := Z.to_nat ((55 - len) mod 64) in
  msg ++ [0x80] ++ replicate zeros 0 ++ le_bytes 8 (Z.land (8 * len) 0xffffffffffffffff).

Fixpoint words (n : nat) (bs : list Z) : list Z :=
  match n with
  | O => []
  | S n' => le_word (take 4 bs) :: words n' (drop 4 bs)
  end.

Definition regs : Type := Z * Z * Z * Z.

Definition round (M : list Z) (r : regs) (i : nat) : regs :=
  let '(A, B, C, D) := r in
  let iz := Z.of_nat i in
  let '(F, g) :=
    if iz <? 16 then (Z.lor (Z.land B C) (Z.land (not32 B) D), iz)
    else if iz <? 32 then
      (Z.lor (Z.land D B) (Z.land (not32 D) C), (5 * iz + 1) mod 16)
    else if iz <? 48 then (Z.lxor B (Z.lxor C D), (3 * iz + 5) mod 16)
    else (Z.lxor C (Z.lor B (not32 D)), (7 * iz) mod 16) in
  let F := add32 (add32 (add32 F A) (K !!! i)) (M !!! Z.to_nat g) in
  (D, add32 B (rotl32 F (shifts !!! i)), B, C).

Definition block (r : regs) (M : list Z) : regs :=
  let '(a0, b0, c0, d0) := r in
  let '(A, B, C, D) := fold_left (round M) (seq 0 64) r in
  (add32 a0 A, add32 b0 B, add32 c0 C, add32 d0 D).

Fixpoint blocks (n : nat) (r : regs) (bs : list Z) : regs :=
  match n with
  | O => r
  | S n' => blocks n' (block r (words 16 (take 64 bs))) (drop 64 bs)
  end.

Definition digest (msg : list Z) : list Z :=
  let p := pad msg in
  let '(a, b, c, d) :=
    blocks (length p / 64)%nat
           (0x67452301, 0xefcdab89, 0x98badcfe, 0x10325476) p in
  le_bytes 4 a ++ le_bytes 4 b ++ le_bytes 4 c ++ le_bytes 4 d.

Definition hex_digit (x : Z) : ascii :=
  match x with
  | 0 => "0" | 1 => "1" | 2 => "2" | 3 => "3" | 4 => "4" | 5 => "5"
  | 6 => "6" | 7 => "7" | 8 => "8" | 9 => "9" | 10 => "a" | 11 => "b"
  | 12 => "c" | 13 => "d" | 14 => "e" | _ => "f"
  end%char.

Fixpoint hex (bs : list Z) : string :=
  match bs with
  | [] => ""
  | b :: bs' =>
      String (hex_digit (Z.shiftr b 4)) (String (hex_digit (Z.land b 0xf)) (hex bs'))
  end.

(** [s.encode()]: the bytes of the string. *)
Definition encode (s : string) : list Z :=
  map (fun c => Z.of_N (N_of_ascii c)) (list_ascii_of_string s).

(** [hashlib.md5(s.encode()).hexdigest()] *)
Definition hexdigest (s : string) : string := hex (digest (encode s)).

End MD5.

(** ** Files on disk and the state of the application *)

(** One record of the chunk file: [{data_link, chunk_id, content}]. *)
Record chunk : Type := Chunk {
  data_link : string;
  chunk_id : string;
  content : string
}.

(** One entry of the FAISS docstore: the text and its metadata dict
    [{"data_link": ..., "chunk_id": ...}]. *)
Record document : Type := Document {
  page_content : string;
  metadata_data_link : string;
  metadata_chunk_id : string
}.

(** What a regular file holds, as far as the code reads it back.
    [vector] is the type of an embedding, left abstract. *)
Inductive payload (vector : Type) : Type :=
  | JsonDataset (d : list (string * string))  (* object: data-link -> text *)
  | JsonChunks (cs : list chunk)              (* array of chunk records *)
  | FaissIndex (vs : list vector)             (* written by faiss.write_index *)
  | Pickle (docs : list document)             (* the pickled docstore *)
  | Raw (s : string).                         (* anything else *)
Arguments JsonDataset {vector} d.
Arguments JsonChunks {vector} cs.
Arguments FaissIndex {vector} vs.
Arguments Pickle {vector} docs.
Arguments Raw {vector} s.

Inductive node (vector : Type) : Type :=
  | File (p : payload vector)
  | Dir.
Arguments File {vector} p.
Arguments Dir {vector}.

(** The files by path; [embedded] is a ghost log of the [(model, text)]
    pairs for which an embedding was computed, oldest first. *)
Record app_state (vector : Type) : Type := AppState {
  files : gmap string (node vector);
  embedded : list (string * string)
}.
Arguments AppState {vector} files embedded.
Arguments files {vector} a.
Arguments embedded {vector} a.

Inductive result (A : Type) : Type :=
  | Ok (a : A)
  | Err (e : exn).
Arguments Ok {A} a.
Arguments Err {A} e.

(** State and exceptions, threaded by hand. *)
Definition M (vector A : Type) : Type :=
  app_state vector -> result A * app_state vector.

Definition ret {vector A : Type} (a : A) : M vector A := fun st => (Ok a, st).

Definition raise {vector A : Type} (e : exn) : M vector A :=
  fun st => (Err e, st).

Definition bind {vector A B : Type} (c : M vector A) (k : A -> M vector B)
  : M vector B :=
  fun st =>
    match c st with
    | (Ok a, st') => k a st'
    | (Err e, st') => (Err e, st')
    end.

Notation "'do' x <- c ; k" := (bind c (fun x => k))
  (at level 10, x name, c at level 100, k at level 200).
Notation "c ;;; k" := (bind c (fun _ => k))
  (at level 100, k at level 200, right associativity).

(** *** os and os.path (POSIX) *)

Module Os.

Fixpoint drop_while (f : ascii -> bool) (l : list ascii) : list ascii :=
  match l with
  | [] => []
  | c :: l' => if f c then drop_while f l' else l
  end.

Definition is_slash (c : ascii) : bool := bool_decide (c = "/"%char).

(** [posixpath.dirname]: the part up to the last slash, without its
    trailing slashes unless it consists of slashes only. *)
Definition dirname (p : string) : string :=
  let head := drop_while (fun c => negb (is_slash c))
                         (rev (list_ascii_of_string p)) in
  let stripped := drop_while is_slash head in
  string_of_list_ascii (rev (match stripped with [] => head | _ => stripped end)).

Fixpoint take_while (f : ascii -> bool) (l : list ascii) : list ascii :=
  match l with
  | [] => []
  | c :: l' => if f c then c :: take_while f l' else []
  end.

(** [posixpath.basename]: the part after the last slash. *)
Definition basename (p : string) : string :=
  string_of_list_ascii
    (rev (take_while (fun c => negb (is_slash c))
                     (rev (list_ascii_of_string p)))).

(** [posixpath.join(a, b)] *)
Definition join (a b : string) : string :=
  if startswith b "/" then b
  else
    match rev (list_ascii_of_string a) with
    | [] => b
    | c :: _ => if is_slash c then a +:+ b else a +:+ "/" +:+ b
    end.

(** The directories that exist whatever the files are: the current
    directory (to which a path without a slash is relative), its parent
    and the root. *)
Definition always_a_directory (d : string) : bool :=
  bool_decide (d = "") || bool_decide (d = ".") || bool_decide (d = "..")
  || bool_decide (dirname d = d).

(** The directories above [p], nearest first, up to the first one that
    always exists: the [head]s on which [os.makedirs] recurses.  A path has
    fewer of them than characters. *)
Fixpoint ancestors_from (n : nat) (p : string) : list string :=
  match n with
  | O => []
  | S n' =>
      let d := dirname p in
      if always_a_directory d then [] else d :: ancestors_from n' d
  end.

Definition ancestors (p : string) : list string :=
  ancestors_from (String.length p) p.

Section WithVector.
Context {vector : Type}.

Definition is_regular_file (fs : gmap string (node vector)) (p : string)
  : bool :=
  match fs !! p with
  | Some (File _) => true
  | _ => false
  end.

(** The files once every path of [ps] is a directory. *)
Definition with_dirs (ps : list string) (fs : gmap string (node vector))
  : gmap string (node vector) :=
  foldr (fun p m => <[p := Dir]> m) fs ps.

Definition path_exists (p : string) : M vector bool :=
  fun st => (Ok (bool_decide (is_Some (files st !! p))), st).

(** [os.remove(p)]: removes a regular file; a directory is refused. *)
Definition remove (p : string) : M vector unit :=
  fun st =>
    match files st !! p with
    | Some (File _) => (Ok tt, AppState (delete p (files st)) (embedded st))
    | Some Dir => (Err IsADirectoryError, st)
    | None => (Err FileNotFoundError, st)
    end.

(** [os.makedirs(p, exist_ok=True)], and [Path(p).mkdir(exist_ok=True,
    parents=True)] alike: the missing directories above [p] are created
    with it; a regular file above [p] or at [p] is an error. *)
Definition makedirs (p : string) : M vector unit :=
  fun st =>
    if decide (p = "") then (Err FileNotFoundError, st)
    else if existsb (is_regular_file (files st)) (ancestors p)
    then (Err NotADirectoryError, st)
    else
      match files st !! p with
      | Some (File _) => (Err FileExistsError, st)
      | _ => (Ok tt, AppState (with_dirs (p :: ancestors p) (files st))
                              (embedded st))
      end.

(** [open(p, 'r')] followed by reading the whole file. *)
Definition read_file (p : string) : M vector (payload vector) :=
  fun st =>
    match files st !! p with
    | Some (File c) => (Ok c, st)
    | Some Dir => (Err IsADirectoryError, st)
    | None => (Err FileNotFoundError, st)
    end.

(** [open(p, 'w')] followed by writing [c], for a write that runs to its
    end: a serialisation that fails halfway through [c] is not
    represented. *)
Definition write_file (p : string) (c : payload vector) : M vector unit :=
  fun st =>
    if decide (p = "") then (Err FileNotFoundError, st)
    else
      match files st !! p with
      | Some Dir => (Err IsADirectoryError, st)
      | _ => (Ok tt, AppState (<[p := File c]> (files st)) (embedded st))
      end.

End WithVector.
End Os.

(** ** app/chunker.py *)

Module Chunker.
Section WithSplitter.
Context {vector : Type}.

(** [RecursiveCharacterTextSplitter(chunk_size, chunk_overlap)
    .split_text(text)], the splitter of langchain. *)
Context (split_text : Z -> Z -> string -> list string).

(** Lines 21-26: the chunks of one [(data_link, content)] item. *)
Definition item_chunks (chunk_size chunk_overlap : Z) (item : string * string)
  : list chunk :=
  imap (fun i piece =>
          Chunk (fst item) (fst item +:+ "_chunk_" +:+ pretty i) piece)
       (split_text chunk_size chunk_overlap (snd item)).

(** Lines 16-26: the list [chunks] after the loop over [data.items()]. *)
Definition all_chunks (chunk_size chunk_overlap : Z)
    (data : list (string * string)) : list chunk :=
  flat_map (item_chunks chunk_size chunk_overlap) data.

(** [json.load(file)] followed by [data.items()]: an array has no
    [items]. *)
Definition json_load_dataset (p : payload vector)
  : M vector (list (string * string)) :=
  match p with
  | JsonDataset d => ret d
  | JsonChunks _ => raise AttributeError
  | _ => raise JSONDecodeError
  end.

(** Line 15: [RecursiveCharacterTextSplitter(chunk_size=..., chunk_overlap=...)]
    refuses an overlap larger than the chunk size. *)
Definition splitter_refuses (chunk_size chunk_overlap : Z) : bool :=
  chunk_size <? chunk_overlap.

(** [chunk_content(input_file, output_file, chunk_size, chunk_overlap)];
    it returns the number of chunks it reports on its last line. *)
Definition chunk_content (input_file output_file : string)
    (chunk_size chunk_overlap : Z) : M vector nat :=
  do found <- Os.path_exists input_file;
  if negb found then raise FileNotFoundError
  else
    do raw <- Os.read_file input_file;
    do data <- json_load_dataset raw;
    if splitter_refuses chunk_size chunk_overlap then raise ValueError
    else
      let chunks := all_chunks chunk_size chunk_overlap data in
      Os.makedirs (Os.dirname output_file);;;
      Os.write_file output_file (JsonChunks chunks);;;
      ret (length chunks).

End WithSplitter.
End Chunker.

(** ** app/streamlit-chat.py *)

Module Chat.

Definition FAISS_INDEX_DIR : string := "./faiss_indices".

(** The string that [get_index_name] hashes. *)
Definition unique_string (json_file_path embedding_model_name : string)
  : string :=
  json_file_path +:+ "_" +:+ embedding_model_name.

Definition get_index_name (json_file_path embedding_model_name : string)
  : string :=
  "faiss_index_" +:+ MD5.hexdigest (unique_string json_file_path embedding_model_name).

Definition index_path_of (json_file_path embedding_model_name : string)
  : string :=
  Os.join FAISS_INDEX_DIR (get_index_name json_file_path embedding_model_name).

(** [s.lstrip('/')] *)
Definition lstrip_slash (s : string) : string :=
  string_of_list_ascii (Os.drop_while Os.is_slash (list_ascii_of_string s)).

(** Lines 45-51: the completion of one chunk's [data_link]. *)
Definition complete_link (base_url : string) (c : chunk) : chunk :=
  let l := data_link c in
  if startswith l "#" then Chunk (base_url +:+ l) (chunk_id c) (content c)
  else if negb (startswith l "http") then
    Chunk (base_url +:+ "/" +:+ lstrip_slash l) (chunk_id c) (content c)
  else c.

(** A FAISS vector store: the embedding model it queries with, the
    vectors of its index and the documents of its docstore, in the same
    order. *)
Record vector_store (vector : Type) : Type := VectorStore {
  embedding_model : string;
  index_vectors : list vector;
  docstore : list document
}.
Arguments VectorStore {vector} embedding_model index_vectors docstore.
Arguments embedding_model {vector} v.
Arguments index_vectors {vector} v.
Arguments docstore {vector} v.

(** What the sidebar shows after the delete button. *)
Inductive notice : Type :=
  | Success (msg : string)
  | Info (msg : string).

Section WithEmbedding.
Context {vector : Type}.

(** [HuggingFaceEmbeddings(model_name=m)] applied to one text. *)
Context (embed : string -> string -> vector).

Definition load_chunks (json_file_path base_url : string)
  : M vector (list chunk) :=
  do found <- Os.path_exists json_file_path;
  if negb found then ret []
  else
    do raw <- Os.read_file json_file_path;
    match raw with
    | JsonChunks data => ret (map (complete_link base_url) data)
    | JsonDataset [] => ret []
    | JsonDataset (_ :: _) => raise AttributeError   (* [str] has no [get] *)
    | _ => raise JSONDecodeError
    end.

(** [embedder.embed_documents(texts)]: one embedding per text, in order. *)
Definition embed_documents (model : string) (texts : list string)
  : M vector (list vector) :=
  fun st =>
    (Ok (map (embed model) texts),
     AppState (files st) (embedded st ++ map (fun t => (model, t)) texts)).

(** [FAISS.from_texts(texts, embedding, metadatas)]: the texts are
    embedded, then the index is sized by [len(embeddings[0])], which an
    empty list of texts does not have. *)
Definition from_texts (model : string) (texts : list string)
    (metadatas : list (string * string)) : M vector (vector_store vector) :=
  do vs <- embed_documents model texts;
  match vs with
  | [] => raise IndexError
  | _ :: _ =>
      ret (VectorStore model vs
             (zip_with (fun t md => Document t (fst md) (snd md)) texts metadatas))
  end.

(** [Path(folder) / "index.faiss"] and [Path(folder) / "index.pkl"]; a
    path stands for the file it denotes, so pathlib's removal of a
    leading ["./"] is not shown. *)
Definition faiss_file (folder : string) : string := Os.join folder "index.faiss".
Definition pkl_file (folder : string) : string := Os.join folder "index.pkl".

(** [vector_store.save_local(folder)]: creates the folder and writes
    [index.faiss] and [index.pkl] into it. *)
Definition save_local (v : vector_store vector) (folder : string)
  : M vector unit :=
  Os.makedirs folder;;;
  Os.write_file (faiss_file folder) (FaissIndex (index_vectors v));;;
  Os.write_file (pkl_file folder) (Pickle (docstore v)).

(** [faiss.read_index(p)]: the library refuses a file that is missing or
    holds no index with a [RuntimeError]. *)
Definition read_index (p : string) : M vector (list vector) :=
  fun st =>
    match files st !! p with
    | Some (File (FaissIndex vs)) => (Ok vs, st)
    | _ => (Err RuntimeError, st)
    end.

(** [FAISS.load_local(folder, embedder, allow_dangerous_deserialization=True)]:
    the index is read first, then the docstore is unpickled. *)
Definition load_local (folder model : string) : M vector (vector_store vector) :=
  do vs <- read_index (faiss_file folder);
  do pkl <- Os.read_file (pkl_file folder);
  match pkl with
  | Pickle docs => ret (VectorStore model vs docs)
  | _ => raise UnpicklingError
  end.

Definition create_vector_store (chunks : list chunk)
    (embedding_model_name json_file_path : string)
  : M vector (vector_store vector * string) :=
  let texts := map content chunks in
  let metadatas := map (fun c => (data_link c, chunk_id c)) chunks in
  do v <- from_texts embedding_model_name texts metadatas;
  let index_path := index_path_of json_file_path embedding_model_name in
  Os.makedirs FAISS_INDEX_DIR;;;
  save_local v index_path;;;
  ret (v, index_path).

Definition load_or_create_vector_store (chunks : list chunk)
    (embedding_model_name json_file_path : string)
  : M vector (vector_store vector) :=
  let index_path := index_path_of json_file_path embedding_model_name in
  do found <- Os.path_exists index_path;
  if found then load_local index_path embedding_model_name
  else
    do r <- create_vector_store chunks embedding_model_name json_file_path;
    ret (fst r).

(** Lines 286-293 of [main]: the button "Delete Existing Vector Store". *)
Definition delete_existing_vector_store
    (json_file_path embedding_model_name : string) : M vector notice :=
  let index_path := index_path_of json_file_path embedding_model_name in
  do found <- Os.path_exists index_path;
  if found then
    Os.remove index_path;;;
    ret (Success "Existing FAISS vector store deleted.")
  else ret (Info "No existing FAISS vector store found to delete.").

(** A persisted index: the folder and its two files, as [save_local]
    leaves them. *)
Definition persisted_at (fs : gmap string (node vector)) (folder : string)
    (v : vector_store vector) : Prop :=
  fs !! folder = Some Dir
  /\ fs !! faiss_file folder = Some (File (FaissIndex (index_vectors v)))
  /\ fs !! pkl_file folder = Some (File (Pickle (docstore v))).

End WithEmbedding.
End Chat.

(** ** Concrete collaborators for the examples

    Small stand-ins that agree with urllib and tldextract on the URLs of
    the examples below (absolute [http(s)://host/path] URLs, empty and
    fragment-only references).  The theorems quantify over every
    [world]; only the examples use these. *)

Module Example.

Fixpoint after_scheme (l : list ascii) : option (list ascii) :=
  match l with
  | [] => None
  | c :: l' =>
      match c, l' with
      | ":"%char, "/"%char :: "/"%char :: rest => Some rest
      | _, _ => after_scheme l'
      end
  end.

Fixpoint take_until (f : ascii -> bool) (l : list ascii) : list ascii :=
  match l with
  | [] => []
  | c :: l' => if f c then [] else c :: take_until f l'
  end.

Definition is_colon (c : ascii) : bool := bool_decide (c = ":"%char).
Definition is_hash (c : ascii) : bool := bool_decide (c = "#"%char).
Definition is_dot (c : ascii) : bool := bool_decide (c = "."%char).
Definition ends_host (c : ascii) : bool :=
  Os.is_slash c || is_hash c || bool_decide (c = "?"%char).

Definition ex_scheme (u : string) : string :=
  match after_scheme (list_ascii_of_string u) with
  | Some _ => string_of_list_ascii (take_until is_colon (list_ascii_of_string u))
  | None => ""
  end.

Definition host_chars (u : string) : list ascii :=
  match after_scheme (list_ascii_of_string u) with
  | Some rest => take_until ends_host rest
  | None => take_until ends_host (list_ascii_of_string u)
  end.

Definition ex_netloc (u : string) : string :=
  match after_scheme (list_ascii_of_string u) with
  | Some rest => string_of_list_ascii (take_until ends_host rest)
  | None => ""
  end.

(** The last label of the host, and the one before it. *)
Definition ex_suffix (u : string) : string :=
  string_of_list_ascii (rev (take_until is_dot (rev (host_chars u)))).

Definition ex_domain (u : string) : string :=
  let r := rev (host_chars u) in
  let before := drop (S (length (take_until is_dot r))) r in
  string_of_list_ascii (rev (take_until is_dot before)).

(** An absolute reference replaces the base, a fragment-only one replaces
    the fragment of the base, an empty one gives the base. *)
Definition ex_urljoin (base ref : string) : string :=
  if bool_decide (ref = "") then base
  else if startswith ref "#" then
    string_of_list_ascii (take_until is_hash (list_ascii_of_string base)) +:+ ref
  else ref.

Definition world_of (get : string -> page) : world :=
  World get ex_urljoin ex_netloc ex_scheme ex_domain ex_suffix.

Definition A : string := "https://site.test/a".
Definition B : string := "https://site.test/b".
Definition C : string := "https://site.test/c".

(** The three-page site: A links to B and C, C links back to A. *)
Definition three_pages (u : string) : page :=
  if bool_decide (u = A) then
    Parsed (Soup [("#intro", "Welcome"); ("about", "About us")] [B; C] "page A")
  else if bool_decide (u = B) then
    Parsed (Soup [("https://site.test/b#team", "The team")] [] "page B")
  else if bool_decide (u = C) then
    Parsed (Soup [] [A] "page C")
  else FetchFails.

(** The same site when the driver cannot load B, and when the parser
    rejects the source of B. *)
Definition b_unreachable (u : string) : page :=
  if bool_decide (u = B) then FetchFails else three_pages u.

Definition b_rejected (u : string) : page :=
  if bool_decide (u = B) then ParseFails else three_pages u.

(** A splitter for the examples: consecutive windows of [chunk_size]
    characters, each after the first starting [chunk_overlap] characters
    before the end of the previous one. *)
Fixpoint windows (fuel : nat) (size step : nat) (l : list ascii)
  : list string :=
  match fuel with
  | O => []
  | S fuel' =>
      match l with
      | [] => []
      | _ =>
          string_of_list_ascii (take size l)
          :: (if bool_decide (length l <= size)%nat then []
              else windows fuel' size step (drop step l))
      end
  end.

Definition ex_split_text (chunk_size chunk_overlap : Z) (text : string)
  : list string :=
  let l := list_ascii_of_string text in
  windows (length l) (Z.to_nat chunk_size)
          (Z.to_nat (chunk_size - chunk_overlap)) l.

(** An embedding for the examples: the length of the text. *)
Definition ex_embed (model text : string) : nat := String.length text.

Definition no_files : app_state nat := AppState ∅ [].

Definition dataset_file : string := "./data/data_links_with_content.json".
Definition chunks_file : string := "./data/content_chunks.json".
Definition model_name : string := "sentence-transformers/all-MiniLM-L6-v2".

(** The dataset of the example scenario of the chunker. *)
Definition one_page : list (string * string) :=
  [("https://x/a", "Hello world. This is page A.")].

Definition with_dataset (d : list (string * string)) : app_state nat :=
  AppState {[dataset_file := File (JsonDataset d)]} [].

Definition two_chunks : list chunk :=
  [Chunk "https://x/a" "https://x/a_chunk_0" "Hello world.";
   Chunk "https://x/a" "https://x/a_chunk_1" "This is page A."].

End Example.

(** ** Vocabulary of the properties *)

(** The log of fetched URLs grew from [before] to [after] by URLs that
    are pairwise distinct and were not in the visited set [seen]. *)
Definition fetches_once (seen : gset string) (before after : list string)
  : Prop :=
  exists new, after = before ++ new
              /\ NoDup new
              /\ forall u, u ∈ new -> u ∉ seen.

(** One run of [scrape_site] from [st] to [st']: the visited set only
    grows and every URL fetched in between was unvisited before and is
    visited after. *)
Definition site_run (st st' : SiteScript.site_state) : Prop :=
  SiteScript.visited_urls st ⊆ SiteScript.visited_urls st'
  /\ exists new, SiteScript.fetched_urls st' = SiteScript.fetched_urls st ++ new
                 /\ NoDup new
                 /\ forall u, u ∈ new ->
                      (u ∉ SiteScript.visited_urls st)
                      /\ (u ∈ SiteScript.visited_urls st').

(** The state in which [scrape_with_content] leaves an unvisited
    [base_url]: the URL is visited and fetched, and the elements of its
    page, if it has one, are stored. *)
Definition after_page (W : world) (base_url : string) (st : Crawler.crawl_state)
  : Crawler.crawl_state :=
  Crawler.CrawlState
    ({[base_url]} ∪ Crawler.visited st)
    (match driver_get W base_url with
     | Parsed sp =>
         Crawler.store_elements W base_url (data_link_elements sp)
                                (Crawler.data_content st)
     | _ => Crawler.data_content st
     end)
    (Crawler.fetched st ++ [base_url]).

(** The [data-link] elements that the page at [base_url] offers. *)
Definition page_elements (W : world) (base_url : string)
  : list (string * string) :=
  match driver_get W base_url with
  | Parsed sp => data_link_elements sp
  | _ => []
  end.

(** Line 36: the test that lets the crawler follow a link. *)
Definition same_netloc (W : world) (base_url href : string) : bool :=
  bool_decide (netloc W (urljoin W base_url href) = netloc W base_url).

(** The test of [load_chunks] for a complete URL. *)
Definition is_complete_url (u : string) : bool := startswith u "http".

Definition is_http_url (u : string) : bool :=
  startswith u "http://" || startswith u "https://".

(** [urljoin] resolves a fragment-only reference against an http(s) base
    to an http(s) URL. *)
Definition resolves_fragments (W : world) : Prop :=
  forall base ref,
    is_http_url base = true -> startswith ref "#" = true ->
    is_http_url (urljoin W base ref) = true.

Definition keys (d : list (string * string)) : list string := map fst d.

(** No underscore occurs in the string. *)
Definition underscore_free (s : string) : Prop :=
  Forall (fun c => c <> "_"%char) (list_ascii_of_string s).

(** The file [output_file] can be created: its last component names a
    file, its directory part is not empty, no regular file is at that
    directory or above it, and the path itself is not a directory. *)
Definition writable {vector : Type} (fs : gmap string (node vector))
    (output_file : string) : Prop :=
  (Os.basename output_file ∉ [""; "."; ".."])
  /\ Os.dirname output_file <> ""
  /\ (output_file ∉ Os.dirname output_file :: Os.ancestors (Os.dirname output_file))
  /\ Forall (fun d => forall p, fs !! d <> Some (File p))
            (Os.dirname output_file :: Os.ancestors (Os.dirname output_file))
  /\ fs !! output_file <> Some Dir.

(** No index is persisted at [folder]: neither the folder nor a file of
    an index in it exists.  (The map of files is flat, so the absence of
    the two files is said apart.) *)
Definition nothing_at {vector : Type} (fs : gmap string (node vector))
    (folder : string) : Prop :=
  fs !! folder = None
  /\ fs !! Chat.faiss_file folder = None
  /\ fs !! Chat.pkl_file folder = None.

(** The store that [FAISS.from_texts] builds for [chunks]. *)
Definition built_store {vector : Type} (embed : string -> string -> vector)
    (model : string) (chunks : list chunk) : Chat.vector_store vector :=
  Chat.VectorStore model
    (map (embed model) (map content chunks))
    (map (fun c => Document (content c) (data_link c) (chunk_id c)) chunks).

(** The files after [create_vector_store] has saved the store of
    [chunks]. *)
Definition files_after_build {vector : Type}
    (embed : string -> string -> vector) (fs : gmap string (node vector))
    (chunks : list chunk) (m j : string) : gmap string (node vector) :=
  let folder := Chat.index_path_of j m in
  let v := built_store embed m chunks in
  <[Chat.pkl_file folder := File (Pickle (Chat.docstore v))]>
    (<[Chat.faiss_file folder := File (FaissIndex (Chat.index_vectors v))]>
       (<[folder := Dir]> (<[Chat.FAISS_INDEX_DIR := Dir]> fs))).

(** The identifier that line 24 of chunker.py gives to piece [i] of the
    text stored under [link]. *)
Definition chunk_id_of (link : string) (i : nat) : string :=
  link +:+ "_chunk_" +:+ pretty i.

(** ** The scripts around the functions *)

(** [d.get(k)] on an insertion-ordered dict. *)
Fixpoint dict_get (k : string) (d : list (string * string)) : option string :=
  match d with
  | [] => None
  | (k', v) :: d' => if decide (k = k') then Some v else dict_get k d'
  end.

(** Lines 26-28 of app/crawler.py: the key under which line 30 stores the
    element [el] of the page at [base_url]. *)
Definition stored_key (W : world) (base_url : string) (el : string * string)
  : string :=
  if startswith (fst el) "#" then urljoin W base_url (fst el) else fst el.

(** The text that [save_page_text] gets from the page at [u], when the
    page loads and parses. *)
Definition page_text_of (W : world) (u : string) : option string :=
  match driver_get W u with
  | Parsed sp => Some (page_text sp)
  | _ => None
  end.

(** Line 52 of scrape_site_script.py: the test that lets [scrape_site]
    call itself on the link [href] of the page at [base_url]. *)
Definition in_scope (W : world) (domain base_url href : string) : bool :=
  SiteScript.is_valid_url W (urljoin W base_url href)
  && SiteScript.is_same_domain W (urljoin W base_url href) domain.

(** [v] is [n] links away from [u], each link taken from a parsed page
    and passing the test of line 52. *)
Inductive hops (W : world) (domain : string) : nat -> string -> string -> Prop :=
  | hops_here u : hops W domain 0 u u
  | hops_link n u sp href v :
      driver_get W u = Parsed sp ->
      href ∈ a_hrefs sp ->
      in_scope W domain u href = true ->
      hops W domain n (urljoin W u href) v ->
      hops W domain (S n) u v.

(** What a run of [scrape_site] from [st] to [st'] did: the URLs [new]
    were fetched, the visited set grew by them, and the texts of those
    that parsed were saved in the order of the fetches. *)
Definition site_effect (W : world) (st st' : SiteScript.site_state)
    (new : list string) : Prop :=
  SiteScript.fetched_urls st' = SiteScript.fetched_urls st ++ new
  /\ SiteScript.visited_urls st'
     = SiteScript.visited_urls st ∪ list_to_set new
  /\ SiteScript.saved st'
     = SiteScript.saved st
       ++ omap (fun u => pair u <$> page_text_of W u) new.

Definition is_hex (c : ascii) : Prop :=
  In c (list_ascii_of_string "0123456789abcdef").

Module Scripts.

(** *** app/crawler.py, lines 41-67 *)

Definition crawler_start_url : string := "https://www.udelphi.com/".
Definition crawler_output_dir : string := "./data".
Definition crawler_output_file : string :=
  Os.join crawler_output_dir "data_links_with_content.json".

(** *** app/chunker.py, lines 37-43 *)

Definition chunker_input_path : string := "./data/data_links_with_content.json".
Definition chunker_output_path : string := "./data/content_chunks.json".

Section WithVector.
Context {vector : Type}.

(** The script of app/crawler.py on fresh globals: the crawl, then the
    dump of [data_content]; it answers the number of data-links it
    prints.  [None] stands for a crawl that has not ended within
    [fuel]. *)
Definition crawler_main (W : world) (fuel : nat) (disk : app_state vector)
  : option (result nat * app_state vector) :=
  match Crawler.scrape_with_content W fuel
          [Crawler.VStr crawler_start_url; Crawler.VDriver]
          Crawler.crawl_initial with
  | OutOfFuel => None
  | Raised e _ =>
      (* finally: driver.quit(), and the exception goes on *)
      Some (Err e, disk)
  | Returned st =>
      Some ((Os.makedirs crawler_output_dir;;;
             Os.write_file crawler_output_file
                           (JsonDataset (Crawler.data_content st));;;
             ret (length (Crawler.data_content st))) disk)
  end.

(** The script of app/chunker.py: [chunk_content(input_path,
    output_path)] with the defaults [chunk_size=5000],
    [chunk_overlap=50]. *)
Definition chunker_main (split_text : Z -> Z -> string -> list string)
  : M vector nat :=
  Chunker.chunk_content split_text chunker_input_path chunker_output_path
                        5000 50.

(** Lines 267-283 of app/streamlit-chat.py: the button "Load Data &
    Create/Load Vector Store".  [None] is the [st.stop()] after "No
    chunks loaded"; otherwise the store is the one the QA chain is built
    on. *)
Definition load_button (embed : string -> string -> vector)
    (json_file_path base_url embedding_model_name : string)
  : M vector (option (Chat.vector_store vector)) :=
  do chunks <- Chat.load_chunks json_file_path base_url;
  match chunks with
  | [] => ret None
  | _ :: _ =>
      do v <- Chat.load_or_create_vector_store embed chunks
                embedding_model_name json_file_path;
      ret (Some v)
  end.

End WithVector.
End Scripts.


(** ** Strings as lists of characters *)

Module Import StringFacts.

Lemma chars_app s1 s2 :
  list_ascii_of_string (s1 +:+ s2)
  = list_ascii_of_string s1 ++ list_ascii_of_string s2.
Proof. induction s1 as [|a s1 IH]; [reflexivity|]. cbn. now rewrite <- IH. Qed.

Lemma chars_inj s1 s2 :
  list_ascii_of_string s1 = list_ascii_of_string s2 -> s1 = s2.
Proof.
  intros H. rewrite <- (string_of_list_ascii_of_string s1),
    <- (string_of_list_ascii_of_string s2). now rewrite H.
Qed.

(** Two lists that agree up to and including the first [c] of each. *)
Lemma first_occurrence (c : ascii) a b x y :
  Forall (fun d => d <> c) a -> Forall (fun d => d <> c) b ->
  a ++ c :: x = b ++ c :: y -> a = b /\ x = y.
Proof.
  revert b. induction a as [|d a IH]; intros b Ha Hb Heq.
  - destruct b as [|e b]; cbn in Heq.
    + split; [reflexivity|]. congruence.
    + inversion Hb; subst. congruence.
  - destruct b as [|e b]; cbn in Heq.
    + inversion Ha; subst. congruence.
    + inversion Ha; inversion Hb; subst. inversion Heq; subst.
      destruct (IH b) as [-> ->]; auto.
Qed.

Lemma string_app_assoc s1 s2 s3 : (s1 +:+ s2) +:+ s3 = s1 +:+ (s2 +:+ s3).
Proof. apply chars_inj. now rewrite !chars_app, app_assoc. Qed.

Lemma string_app_inv_tail s1 s2 t : s1 +:+ t = s2 +:+ t -> s1 = s2.
Proof.
  intros H. apply chars_inj. apply (f_equal list_ascii_of_string) in H.
  rewrite !chars_app in H. now apply app_inv_tail in H.
Qed.

Lemma string_app_ne_self s t : t <> "" -> s +:+ t <> s.
Proof.
  intros Ht H. apply Ht. apply chars_inj.
  apply (f_equal list_ascii_of_string) in H. rewrite chars_app in H.
  apply (f_equal (@length ascii)) in H. rewrite length_app in H.
  destruct (list_ascii_of_string t); [reflexivity|cbn in H; lia].
Qed.

End StringFacts.

(** ** Stepping through the state-and-exception monad *)

Module Import StepFacts.
Section WithVector.
Context {vector : Type}.
Implicit Types st : app_state vector.

Lemma bind_ok {A B : Type} (c : M vector A) (k : A -> M vector B) st a st' :
  c st = (Ok a, st') -> bind c k st = k a st'.
Proof. unfold bind. now intros ->. Qed.

Lemma bind_err {A B : Type} (c : M vector A) (k : A -> M vector B) st e st' :
  c st = (Err e, st') -> bind c k st = (Err e, st').
Proof. unfold bind. now intros ->. Qed.

Lemma path_exists_found p st :
  is_Some (files st !! p) -> Os.path_exists p st = (Ok true, st).
Proof. intros H. unfold Os.path_exists. now rewrite bool_decide_eq_true_2. Qed.

Lemma path_exists_missing p st :
  files st !! p = None -> Os.path_exists p st = (Ok false, st).
Proof.
  intros H. unfold Os.path_exists. rewrite bool_decide_eq_false_2; [reflexivity|].
  rewrite H. now intros [? ?].
Qed.

Lemma read_file_found p c st :
  files st !! p = Some (File c) -> Os.read_file p st = (Ok c, st).
Proof. intros H. unfold Os.read_file. now rewrite H. Qed.

Lemma no_regular_file fs (ds : list string) :
  Forall (fun d => forall c : payload vector, fs !! d <> Some (File c)) ds ->
  existsb (Os.is_regular_file fs) ds = false.
Proof.
  induction 1 as [|d ds Hd _ IH]; [reflexivity|]. cbn. rewrite IH.
  unfold Os.is_regular_file.
  destruct (fs !! d) as [[c|]|] eqn:E; [now destruct (Hd c)|reflexivity..].
Qed.

(** The directory and everything above it can be created. *)
Lemma makedirs_deep p st :
  p <> "" ->
  Forall (fun d => forall c, files st !! d <> Some (File c))
         (p :: Os.ancestors p) ->
  Os.makedirs p st
  = (Ok tt, AppState (Os.with_dirs (p :: Os.ancestors p) (files st))
                     (embedded st)).
Proof.
  intros Hp Hfiles. inversion Hfiles as [|? ? Hfile Habove]; subst.
  unfold Os.makedirs. rewrite decide_False by exact Hp.
  rewrite (no_regular_file _ _ Habove).
  destruct (files st !! p) as [[c|]|] eqn:E; [now destruct (Hfile c)|reflexivity..].
Qed.

(** A directory right under one that always exists. *)
Lemma makedirs_ok p st :
  p <> "" -> Os.ancestors p = [] ->
  (forall c, files st !! p <> Some (File c)) ->
  Os.makedirs p st = (Ok tt, AppState (<[p := Dir]> (files st)) (embedded st)).
Proof.
  intros Hp Habove Hfile. rewrite makedirs_deep; [now rewrite Habove|exact Hp|].
  rewrite Habove. constructor; [exact Hfile|constructor].
Qed.

Lemma write_file_ok p c st :
  p <> "" -> files st !! p <> Some Dir ->
  Os.write_file p c st
  = (Ok tt, AppState (<[p := File c]> (files st)) (embedded st)).
Proof.
  intros Hp Hdir. unfold Os.write_file. rewrite decide_False by exact Hp.
  destruct (files st !! p) as [[c'|]|] eqn:E; [reflexivity|now destruct Hdir|reflexivity].
Qed.

Lemma remove_file p c st :
  files st !! p = Some (File c) ->
  Os.remove p st = (Ok tt, AppState (delete p (files st)) (embedded st)).
Proof. intros H. unfold Os.remove. now rewrite H. Qed.

Lemma remove_dir p st :
  files st !! p = Some Dir -> Os.remove p st = (Err IsADirectoryError, st).
Proof. intros H. unfold Os.remove. now rewrite H. Qed.

(** *** What a step that succeeded has done *)

Lemma bind_inv_ok {A B : Type} (c : M vector A) (k : A -> M vector B)
    st b st' :
  bind c k st = (Ok b, st') ->
  exists a st1, c st = (Ok a, st1) /\ k a st1 = (Ok b, st').
Proof.
  unfold bind. destruct (c st) as [[a|e] st1]; [|discriminate].
  intros H. now exists a, st1.
Qed.

Lemma path_exists_inv p st b st' :
  Os.path_exists p st = (Ok b, st') ->
  st' = st /\ b = bool_decide (is_Some (files st !! p)).
Proof. unfold Os.path_exists. intros H. now simplify_eq. Qed.

Lemma read_file_inv p st c st' :
  Os.read_file p st = (Ok c, st') ->
  st' = st /\ files st !! p = Some (File c).
Proof.
  unfold Os.read_file. destruct (files st !! p) as [[c'|]|]; intros H;
    now simplify_eq.
Qed.

Lemma makedirs_inv p st u st' :
  Os.makedirs p st = (Ok u, st') ->
  st' = AppState (Os.with_dirs (p :: Os.ancestors p) (files st)) (embedded st).
Proof.
  unfold Os.makedirs. destruct (decide (p = "")); [discriminate|].
  destruct (existsb _ _); [discriminate|].
  destruct (files st !! p) as [[c|]|]; intros H; now simplify_eq.
Qed.

Lemma write_file_inv p c st u st' :
  Os.write_file p c st = (Ok u, st') ->
  st' = AppState (<[p := File c]> (files st)) (embedded st).
Proof.
  unfold Os.write_file. destruct (decide (p = "")); [discriminate|].
  destruct (files st !! p) as [[c'|]|]; intros H; now simplify_eq.
Qed.

Lemma with_dirs_lookup_ne (ps : list string) (fs : gmap string (node vector)) q :
  q ∉ ps -> Os.with_dirs ps fs !! q = fs !! q.
Proof.
  induction ps as [|p ps IH]; [reflexivity|]. intros Hq. cbn.
  rewrite lookup_insert_ne; [apply IH|]; set_solver.
Qed.

Lemma with_dirs_lookup_eq (ps : list string) (fs : gmap string (node vector)) q :
  q ∈ ps -> Os.with_dirs ps fs !! q = Some Dir.
Proof.
  induction ps as [|p ps IH]; intros Hq; [now apply elem_of_nil in Hq|]. cbn.
  destruct (decide (p = q)) as [->|Hne]; [apply lookup_insert_eq|].
  rewrite lookup_insert_ne by exact Hne. apply IH.
  apply elem_of_cons in Hq as [->|Hq]; [now destruct Hne|exact Hq].
Qed.

End WithVector.
End StepFacts.

(** ** Properties of app/crawler.py *)

Module CrawlerFacts.
Import Crawler.

Section WithWorld.
Context (W : world).

(** A call with three positional arguments never enters the body. *)
Lemma three_arguments fuel a b c st :
  scrape_with_content W (S fuel) [a; b; c] st = Raised TypeError st.
Proof. destruct a, b; reflexivity. Qed.

(** The loop of lines 33-37 ends at the first link it follows. *)
Lemma links_loop fuel base_url hrefs st :
  for_links (same_netloc W base_url)
    (fun href st =>
       scrape_with_content W (S fuel)
         [VStr (urljoin W base_url href); VStr base_url; VDriver] st)
    hrefs st
  = if existsb (same_netloc W base_url) hrefs
    then Raised TypeError st else Returned st.
Proof.
  induction hrefs as [|h hrefs IH]; [reflexivity|].
  cbn [for_links existsb]. destruct (same_netloc W base_url h); cbn [orb].
  - now rewrite three_arguments.
  - exact IH.
Qed.

(** With fuel for the call and the failing call inside it, the function
    has a closed form. *)
Lemma scrape_with_content_eq fuel base_url st :
  scrape_with_content W (S (S fuel)) [VStr base_url; VDriver] st
  = if decide (base_url ∈ visited st) then Returned st
    else Returned (after_page W base_url st).
Proof.
  cbn [scrape_with_content]. destruct (decide (base_url ∈ visited st)); [reflexivity|].
  unfold after_page. cbn [visited data_content fetched].
  destruct (driver_get W base_url) as [| |sp]; [reflexivity..|].
  fold (same_netloc W base_url).
  change (for_links _ _ (a_hrefs sp) ?s)
    with (for_links (same_netloc W base_url)
            (fun href st =>
               scrape_with_content W (S fuel)
                 [VStr (urljoin W base_url href); VStr base_url; VDriver] st)
            (a_hrefs sp) s).
  rewrite links_loop. now destruct (existsb _ _).
Qed.

(** No exception leaves [scrape_with_content]. *)
Lemma scrape_with_content_returns fuel base_url st :
  exists st', scrape_with_content W (S (S fuel)) [VStr base_url; VDriver] st
              = Returned st'.
Proof. rewrite scrape_with_content_eq. destruct (decide _); eauto. Qed.

Lemma scrape_with_content_fetches_once fuel base_url st :
  exists st', scrape_with_content W (S (S fuel)) [VStr base_url; VDriver] st
              = Returned st'
              /\ fetches_once (visited st) (fetched st) (fetched st').
Proof.
  rewrite scrape_with_content_eq.
  destruct (decide (base_url ∈ visited st)) as [Hin|Hin]; eexists; (split; [reflexivity|]).
  - exists []. rewrite app_nil_r. split; [reflexivity|]. split; [constructor|].
    intros u Hu. now apply elem_of_nil in Hu.
  - exists [base_url]. split; [reflexivity|]. split; [apply NoDup_singleton|].
    intros u Hu. apply list_elem_of_singleton in Hu. now subst.
Qed.

End WithWorld.
End CrawlerFacts.

(** ** Properties of scrape_site_script.py *)

Module SiteFacts.
Import SiteScript.

Lemma site_run_refl st : site_run st st.
Proof.
  split; [reflexivity|]. exists []. rewrite app_nil_r.
  split; [reflexivity|]. split; [constructor|].
  intros u Hu. now apply elem_of_nil in Hu.
Qed.

Lemma site_run_trans st1 st2 st3 :
  site_run st1 st2 -> site_run st2 st3 -> site_run st1 st3.
Proof.
  intros [Hsub1 (new1 & Hlog1 & Hnd1 & Hnew1)] [Hsub2 (new2 & Hlog2 & Hnd2 & Hnew2)].
  split; [now transitivity (visited_urls st2)|].
  exists (new1 ++ new2). split; [now rewrite Hlog2, Hlog1, app_assoc|].
  split.
  - apply NoDup_app. split; [exact Hnd1|]. split; [|exact Hnd2].
    intros u Hu1 Hu2. destruct (Hnew1 u Hu1) as [_ Hin].
    destruct (Hnew2 u Hu2) as [Hout _]. now apply Hout.
  - intros u Hu. apply elem_of_app in Hu as [Hu|Hu].
    + destruct (Hnew1 u Hu) as [Hout Hin]. split; [exact Hout|]. now apply Hsub2.
    + destruct (Hnew2 u Hu) as [Hout Hin]. split; [|exact Hin].
      intros Hu1. apply Hout. now apply Hsub1.
Qed.

(** Visiting an unvisited URL is a run of one fetch. *)
Lemma site_run_visit base_url st sv :
  base_url ∉ visited_urls st ->
  site_run st (SiteState ({[base_url]} ∪ visited_urls st)
                     (fetched_urls st ++ [base_url]) sv).
Proof.
  intros Hnew. split; [cbn; set_solver|].
  exists [base_url]. cbn. split; [reflexivity|]. split; [apply NoDup_singleton|].
  intros u Hu. apply list_elem_of_singleton in Hu. subst. set_solver.
Qed.

Section Loop.
Context {St : Type} (R : St -> St -> Prop).
Context (R_refl : forall s, R s s).
Context (R_trans : forall s1 s2 s3, R s1 s2 -> R s2 s3 -> R s1 s3).

(** A loop whose body calls stay within [R] stays within [R]. *)
Lemma for_links_preserves follow (visit : string -> St -> outcome St) links :
  (forall l s s', final_state (visit l s) = Some s' -> R s s') ->
  forall st st',
    final_state (for_links follow visit links st) = Some st' -> R st st'.
Proof.
  intros Hvisit. induction links as [|l links IH]; intros st st' Hfin.
  - cbn in Hfin. now inversion Hfin.
  - cbn [for_links] in Hfin. destruct (follow l); [|now apply IH].
    destruct (visit l st) as [s1|e s1|] eqn:Hv.
    + apply R_trans with s1; [apply (Hvisit l); now rewrite Hv | now apply IH].
    + cbn in Hfin. inversion Hfin; subst. apply (Hvisit l). now rewrite Hv.
    + discriminate.
Qed.

End Loop.

(** A loop ends when each call of its body does. *)
Lemma for_links_terminates {St : Type} follow
    (visit : string -> St -> outcome St) links :
  (forall l s, terminated (visit l s)) ->
  forall st, terminated (for_links follow visit links st).
Proof.
  intros Hvisit. induction links as [|l links IH]; intros st; [discriminate|].
  cbn [for_links]. destruct (follow l); [|apply IH].
  destruct (visit l st) eqn:Hv; [apply IH|discriminate|].
  now destruct (Hvisit l st).
Qed.

Section WithWorld.
Context (W : world).

Lemma scrape_site_run fuel :
  forall base_url domain max_depth current_depth st st',
    final_state (scrape_site W fuel base_url domain max_depth current_depth st)
    = Some st' ->
    site_run st st'.
Proof.
  induction fuel as [|fuel IH]; intros base_url domain max_depth current_depth st st' Hfin;
    [discriminate|].
  cbn [scrape_site] in Hfin.
  destruct (bool_decide (base_url ∈ visited_urls st)) eqn:Hseen; cbn [orb] in Hfin.
  { inversion Hfin; subst. apply site_run_refl. }
  destruct (max_depth <? current_depth).
  { inversion Hfin; subst. apply site_run_refl. }
  apply bool_decide_eq_false in Hseen.
  destruct (driver_get W base_url) as [| |sp].
  - inversion Hfin; subst. now apply site_run_visit.
  - inversion Hfin; subst. now apply site_run_visit.
  - cbn [visited_urls fetched_urls saved] in Hfin.
    eapply site_run_trans;
      [apply site_run_visit with (sv := saved st ++ [(base_url, page_text sp)]);
       exact Hseen|].
    eapply (for_links_preserves site_run site_run_refl site_run_trans);
      [|exact Hfin].
    intros l s s' Hl. eapply IH, Hl.
Qed.

(** The recursion is at most [max_depth + 1 - current_depth] calls deep. *)
Lemma scrape_site_terminates fuel :
  forall base_url domain max_depth current_depth st,
    (Z.to_nat (max_depth + 1 - current_depth) < fuel)%nat ->
    terminated (scrape_site W fuel base_url domain max_depth current_depth st).
Proof.
  induction fuel as [|fuel IH]; intros base_url domain max_depth current_depth st Hfuel;
    [lia|].
  cbn [scrape_site].
  destruct (bool_decide (base_url ∈ visited_urls st)); cbn [orb]; [discriminate|].
  destruct (max_depth <? current_depth) eqn:Hdepth; [discriminate|].
  apply Z.ltb_ge in Hdepth.
  destruct (driver_get W base_url) as [| |sp]; [discriminate..|].
  apply for_links_terminates. intros l s. apply IH. lia.
Qed.

Lemma scrape_site_fetches_once fuel base_url domain max_depth current_depth st :
  (Z.to_nat (max_depth + 1 - current_depth) < fuel)%nat ->
  exists st',
    final_state (scrape_site W fuel base_url domain max_depth current_depth st)
    = Some st'
    /\ fetches_once (visited_urls st) (fetched_urls st) (fetched_urls st').
Proof.
  intros Hfuel.
  pose proof (scrape_site_terminates fuel base_url domain max_depth current_depth st Hfuel) as Hterm.
  destruct (scrape_site W fuel base_url domain max_depth current_depth st) as [s|e s|] eqn:Hrun;
    [| |now destruct Hterm];
    (exists s; split; [reflexivity|]);
    (assert (Hfin : final_state (scrape_site W fuel base_url domain max_depth current_depth st) = Some s)
      by now rewrite Hrun);
    apply scrape_site_run in Hfin as [_ (new & Hlog & Hnd & Hnew)];
    exists new; (split; [exact Hlog|]); (split; [exact Hnd|]);
    intros u Hu; now apply Hnew.
Qed.

(** A page that cannot be loaded contributes nothing but its visit, and
    the call returns. *)
Lemma scrape_site_fetch_failure fuel base_url domain max_depth current_depth st :
  driver_get W base_url = FetchFails ->
  base_url ∉ visited_urls st -> current_depth <= max_depth ->
  scrape_site W (S fuel) base_url domain max_depth current_depth st
  = Returned (SiteState ({[base_url]} ∪ visited_urls st)
                    (fetched_urls st ++ [base_url]) (saved st)).
Proof.
  intros Hget Hseen Hdepth. cbn [scrape_site].
  rewrite (bool_decide_eq_false_2 _ Hseen). cbn [orb].
  apply Z.ltb_ge in Hdepth. rewrite Hdepth. now rewrite Hget.
Qed.

(** A source that the parser rejects ends the call with the exception. *)
Lemma scrape_site_parse_failure fuel base_url domain max_depth current_depth st :
  driver_get W base_url = ParseFails ->
  base_url ∉ visited_urls st -> current_depth <= max_depth ->
  scrape_site W (S fuel) base_url domain max_depth current_depth st
  = Raised ParserRejectedMarkup
           (SiteState ({[base_url]} ∪ visited_urls st)
                  (fetched_urls st ++ [base_url]) (saved st)).
Proof.
  intros Hget Hseen Hdepth. cbn [scrape_site].
  rewrite (bool_decide_eq_false_2 _ Hseen). cbn [orb].
  apply Z.ltb_ge in Hdepth. rewrite Hdepth. now rewrite Hget.
Qed.

End WithWorld.
End SiteFacts.

(** ** Stored link identifiers (app/crawler.py, lines 24-30) *)

Module StoreFacts.
Import Crawler.

Lemma startswith_app s p :
  startswith s p = true -> exists r, s = p +:+ r.
Proof.
  unfold startswith. revert s.
  induction p as [|a p IH]; intros s Hp; [now exists s|].
  destruct s as [|b s]; [discriminate|]. cbn in Hp.
  destruct (ascii_dec a b) as [->|]; [|discriminate].
  destruct (IH s Hp) as [r ->]. now exists r.
Qed.

Lemma startswith_app_l p r : startswith (p +:+ r) p = true.
Proof.
  unfold startswith. induction p as [|a p IH]; [now destruct r|].
  change (String a p +:+ r) with (String a (p +:+ r)).
  cbn [String.prefix]. now destruct (ascii_dec a a).
Qed.

Lemma http_url_not_fragment u :
  is_http_url u = true -> startswith u "#" = false.
Proof.
  unfold is_http_url. intros H. apply orb_true_iff in H as [H|H];
    apply startswith_app in H as [r ->]; reflexivity.
Qed.

Lemma keys_dict_set k v d x :
  x ∈ keys (dict_set k v d) -> x = k \/ x ∈ keys d.
Proof.
  unfold keys. induction d as [|[k' v'] d IH]; cbn.
  - intros H. apply list_elem_of_singleton in H. now left.
  - destruct (decide (k = k')) as [->|Hne]; cbn; intros H.
    + now right.
    + apply elem_of_cons in H as [->|H]; [right; now left|].
      destruct (IH H) as [->|Hd]; [now left|]. right. now right.
Qed.

Section WithWorld.
Context (W : world).

(** The key under which line 30 stores the element [el]. *)
Lemma keys_store_elements base_url els d x :
  x ∈ keys (store_elements W base_url els d) ->
  x ∈ keys d
  \/ exists el, el ∈ els
       /\ ((startswith (fst el) "#" = true /\ x = urljoin W base_url (fst el))
           \/ (startswith (fst el) "#" = false /\ x = fst el)).
Proof.
  unfold store_elements. revert d.
  induction els as [|el els IH]; intros d Hx; cbn in Hx; [now left|].
  apply IH in Hx as [Hx|(el' & Hel' & Hk)].
  - unfold store_element in Hx. apply keys_dict_set in Hx as [->|Hx]; [|now left].
    right. exists el. split; [now left|].
    destruct (startswith (fst el) "#"); [left|right]; now split.
  - right. exists el'. split; [now right|exact Hk].
Qed.

End WithWorld.

(** The completion of [load_chunks] yields links that pass its own test
    when the configured base URL does. *)
Lemma complete_link_complete base_url c :
  is_complete_url base_url = true ->
  is_complete_url (data_link (Chat.complete_link base_url c)) = true.
Proof.
  unfold is_complete_url, Chat.complete_link. intros Hb.
  apply startswith_app in Hb as [r ->].
  destruct (startswith (data_link c) "#"); cbn [data_link].
  { apply (startswith_app_l "http"). }
  destruct (startswith (data_link c) "http") eqn:Hl; cbn [negb data_link].
  - exact Hl.
  - apply (startswith_app_l "http").
Qed.

(** The stand-in [ex_urljoin] resolves fragments as urllib does. *)
Lemma ex_urljoin_resolves get : resolves_fragments (Example.world_of get).
Proof.
  intros base ref Hb Hr. cbn [urljoin Example.world_of]. unfold Example.ex_urljoin.
  rewrite Hr. apply startswith_app in Hr as [r ->].
  rewrite bool_decide_eq_false_2 by discriminate.
  unfold is_http_url in Hb |- *. apply orb_true_iff in Hb as [Hb|Hb];
    apply startswith_app in Hb as [b ->]; apply orb_true_iff; [left|right].
  - apply (startswith_app_l "http://").
  - apply (startswith_app_l "https://").
Qed.

End StoreFacts.

(** ** Properties of app/chunker.py *)

Module ChunkerFacts.
Import Chunker.

Lemma pretty_N_char_underscore x : pretty_N_char x <> "_"%char.
Proof. unfold pretty_N_char. repeat case_match; discriminate. Qed.

Lemma pretty_N_go_underscore_free x :
  forall s, underscore_free s -> underscore_free (pretty_N_go x s).
Proof.
  induction (N.lt_wf_0 x) as [x _ IH]; intros s Hs.
  destruct (decide (x = 0)%N) as [->|Hx]; [now rewrite pretty_N_go_0|].
  rewrite pretty_N_go_step by lia. apply IH.
  - apply N.div_lt; lia.
  - constructor; [apply pretty_N_char_underscore|exact Hs].
Qed.

(** The decimal rendering of an ordinal holds digits only. *)
Lemma pretty_nat_underscore_free (i : nat) : underscore_free (pretty i).
Proof.
  unfold pretty, pretty_nat, pretty, pretty_N.
  destruct (decide (N.of_nat i = 0)%N).
  - repeat constructor; discriminate.
  - apply pretty_N_go_underscore_free. constructor.
Qed.

(** The link and the ordinal can be read back from a chunk identifier. *)
Lemma chunk_id_of_inj k1 i k2 j :
  chunk_id_of k1 i = chunk_id_of k2 j -> k1 = k2 /\ i = j.
Proof.
  unfold chunk_id_of. intros Heq.
  apply (f_equal list_ascii_of_string) in Heq.
  rewrite !chars_app in Heq. apply (f_equal (@rev ascii)) in Heq.
  rewrite !rev_app_distr in Heq. cbn [list_ascii_of_string rev app] in Heq.
  rewrite <- !app_assoc in Heq. cbn [app] in Heq.
  apply first_occurrence in Heq as [Hd Hk].
  - split.
    + apply chars_inj. injection Hk as Hk.
      apply (f_equal (@rev ascii)) in Hk. now rewrite !rev_involutive in Hk.
    + apply (inj pretty). apply chars_inj.
      apply (f_equal (@rev ascii)) in Hd. now rewrite !rev_involutive in Hd.
  - apply Forall_rev, pretty_nat_underscore_free.
  - apply Forall_rev, pretty_nat_underscore_free.
Qed.

Section WithSplitter.
Context (split_text : Z -> Z -> string -> list string).

(** A chunk of an item is one piece of its text under the identifier of
    its position. *)
Lemma elem_of_item_chunks size overlap item c :
  c ∈ item_chunks split_text size overlap item <->
  exists i piece,
    split_text size overlap (snd item) !! i = Some piece
    /\ c = Chunk (fst item) (chunk_id_of (fst item) i) piece.
Proof.
  unfold item_chunks. rewrite elem_of_lookup_imap.
  split; intros (i & piece & H1 & H2); exists i, piece; auto.
Qed.

Lemma elem_of_all_chunks size overlap data c :
  c ∈ all_chunks split_text size overlap data <->
  exists item, item ∈ data /\ c ∈ item_chunks split_text size overlap item.
Proof.
  unfold all_chunks. rewrite list_elem_of_In, in_flat_map.
  split; intros (item & H1 & H2); exists item;
    rewrite ?list_elem_of_In in *; auto.
Qed.

Lemma item_chunks_NoDup size overlap item :
  NoDup (chunk_id <$> item_chunks split_text size overlap item).
Proof.
  apply NoDup_alt. intros i j x Hi Hj.
  rewrite list_lookup_fmap in Hi, Hj. unfold item_chunks in Hi, Hj.
  rewrite list_lookup_imap in Hi, Hj.
  destruct (split_text size overlap (snd item) !! i) as [pi|]; [|discriminate].
  destruct (split_text size overlap (snd item) !! j) as [pj|]; [|discriminate].
  cbn in Hi, Hj. inversion Hi as [Hi']. inversion Hj as [Hj'].
  rewrite <- Hj' in Hi'. now apply chunk_id_of_inj in Hi' as [_ ?].
Qed.

Lemma all_chunks_NoDup size overlap data :
  NoDup (keys data) ->
  NoDup (chunk_id <$> all_chunks split_text size overlap data).
Proof.
  unfold keys. induction data as [|item data IH]; intros Hkeys; [constructor|].
  cbn [map] in Hkeys. apply NoDup_cons in Hkeys as [Hfresh Hkeys].
  cbn [all_chunks flat_map]. rewrite fmap_app. apply NoDup_app.
  split; [apply item_chunks_NoDup|]. split; [|now apply IH].
  intros x Hx Hx'.
  apply list_elem_of_fmap in Hx as (c & -> & Hc).
  apply list_elem_of_fmap in Hx' as (c' & Heq & Hc').
  apply elem_of_item_chunks in Hc as (i & p & _ & ->).
  apply elem_of_all_chunks in Hc' as (item' & Hitem' & Hc').
  apply elem_of_item_chunks in Hc' as (i' & p' & _ & ->).
  cbn in Heq. apply chunk_id_of_inj in Heq as [Hk _].
  apply Hfresh. rewrite Hk. apply list_elem_of_In, in_map.
  now apply list_elem_of_In.
Qed.

(** The text of every chunk is a piece returned by the splitter for the
    text of its source: the loop neither joins nor extends pieces. *)
Lemma chunk_text_is_piece size overlap data c :
  c ∈ all_chunks split_text size overlap data ->
  exists text, (data_link c, text) ∈ data
               /\ content c ∈ split_text size overlap text.
Proof.
  intros Hc. apply elem_of_all_chunks in Hc as ([k text] & Hitem & Hc).
  apply elem_of_item_chunks in Hc as (i & piece & Hi & ->).
  exists text. split; [exact Hitem|]. cbn. eapply list_elem_of_lookup_2, Hi.
Qed.

Section Run.
Context {vector : Type}.


(** Line 15: sizes that the splitter refuses stop the call after the
    input is read and before anything is written. *)
Lemma chunk_content_refused input_file output_file size overlap data
    (st : app_state vector) :
  files st !! input_file = Some (File (JsonDataset data)) ->
  splitter_refuses size overlap = true ->
  chunk_content split_text input_file output_file size overlap st
  = (Err ValueError, st).
Proof.
  intros Hin Hsizes. unfold chunk_content.
  erewrite bind_ok by (apply path_exists_found; eauto). cbn [negb].
  erewrite bind_ok by (apply read_file_found; eauto).
  erewrite bind_ok by reflexivity.
  now rewrite Hsizes.
Qed.

(** A run on a dataset file with sizes that the splitter accepts and a
    place for the output. *)
Lemma chunk_content_writes input_file output_file size overlap data
    (st : app_state vector) :
  files st !! input_file = Some (File (JsonDataset data)) ->
  splitter_refuses size overlap = false ->
  writable (files st) output_file ->
  let chunks := all_chunks split_text size overlap data in
  chunk_content split_text input_file output_file size overlap st
  = (Ok (length chunks),
     AppState (<[output_file := File (JsonChunks chunks)]>
                 (Os.with_dirs (Os.dirname output_file
                                :: Os.ancestors (Os.dirname output_file))
                               (files st)))
              (embedded st)).
Proof.
  intros Hin Hsizes (_ & Hdir & Hne & Hfile & Hout) chunks.
  unfold chunk_content.
  erewrite bind_ok by (apply path_exists_found; eauto). cbn [negb].
  erewrite bind_ok by (apply read_file_found; eauto).
  erewrite bind_ok by reflexivity.
  rewrite Hsizes.
  erewrite bind_ok by (apply makedirs_deep; assumption).
  erewrite bind_ok.
  2:{ apply write_file_ok; cbn [files].
      - intros ->. now apply Hdir.
      - rewrite with_dirs_lookup_ne by exact Hne. exact Hout. }
  reflexivity.
Qed.

(** What a run that succeeded on a dataset file has done. *)
Lemma chunk_content_done input_file output_file size overlap data
    (st st' : app_state vector) n :
  files st !! input_file = Some (File (JsonDataset data)) ->
  chunk_content split_text input_file output_file size overlap st
  = (Ok n, st') ->
  let chunks := all_chunks split_text size overlap data in
  splitter_refuses size overlap = false
  /\ n = length chunks
  /\ st' = AppState (<[output_file := File (JsonChunks chunks)]>
                       (Os.with_dirs (Os.dirname output_file
                                      :: Os.ancestors (Os.dirname output_file))
                                     (files st)))
                    (embedded st).
Proof.
  intros Hin Hrun chunks. unfold chunk_content in Hrun.
  erewrite bind_ok in Hrun by (apply path_exists_found; eauto). cbn [negb] in Hrun.
  erewrite bind_ok in Hrun by (apply read_file_found; eauto).
  erewrite bind_ok in Hrun by reflexivity.
  destruct (splitter_refuses size overlap); [discriminate|].
  apply bind_inv_ok in Hrun as ([] & st1 & Hmk & Hrun).
  apply makedirs_inv in Hmk as ->.
  apply bind_inv_ok in Hrun as ([] & st2 & Hwr & Hrun).
  apply write_file_inv in Hwr as ->. cbn in Hrun.
  unfold ret in Hrun. now simplify_eq.
Qed.

End Run.
End WithSplitter.
(** A bound on the pieces of the splitter is a bound on the chunks. *)
Lemma piece_bound_transfers (split_text : Z -> Z -> string -> list string)
    size overlap data (n : nat) :
  (forall text piece,
     piece ∈ split_text size overlap text -> (String.length piece <= n)%nat) ->
  forall c, c ∈ Chunker.all_chunks split_text size overlap data ->
            (String.length (content c) <= n)%nat.
Proof.
  intros Hbound c Hc.
  apply chunk_text_is_piece in Hc as (text & _ & Hpiece).
  now apply (Hbound text).
Qed.

End ChunkerFacts.

(** ** hashlib.md5 on the test suite of RFC 1321 *)

Module MD5Facts.

Example md5_empty : MD5.hexdigest "" = "d41d8cd98f00b204e9800998ecf8427e".
Proof. vm_compute. reflexivity. Qed.

Example md5_a : MD5.hexdigest "a" = "0cc175b9c0f1b6a831c399e269772661".
Proof. vm_compute. reflexivity. Qed.

Example md5_abc : MD5.hexdigest "abc" = "900150983cd24fb0d6963f7d28e17f72".
Proof. vm_compute. reflexivity. Qed.

Example md5_message_digest :
  MD5.hexdigest "message digest" = "f96b697d7cb7938d525a2f31aaf161d0".
Proof. vm_compute. reflexivity. Qed.

Example md5_alphabet :
  MD5.hexdigest "abcdefghijklmnopqrstuvwxyz"
  = "c3fcd3d76192e4007dfb496cca67e13b".
Proof. vm_compute. reflexivity. Qed.

(** Two blocks: the padding of an 80-character message. *)
Example md5_digits :
  MD5.hexdigest
    "12345678901234567890123456789012345678901234567890123456789012345678901234567890"
  = "57edf4a22be3c955ac49da2e2107b67a".
Proof. vm_compute. reflexivity. Qed.

End MD5Facts.

(** ** Hexadecimal digests and path separators *)

Module HexFacts.

Lemma hex_digit_is_hex x : is_hex (MD5.hex_digit x).
Proof.
  unfold MD5.hex_digit, is_hex.
  repeat case_match; cbn; repeat (try (left; reflexivity); right).
Qed.

Lemma hex_chars bs : Forall is_hex (list_ascii_of_string (MD5.hex bs)).
Proof.
  induction bs as [|b bs IH]; [constructor|].
  cbn. constructor; [apply hex_digit_is_hex|].
  constructor; [apply hex_digit_is_hex|exact IH].
Qed.

Lemma hex_length bs : String.length (MD5.hex bs) = (2 * length bs)%nat.
Proof. induction bs as [|b bs IH]; [reflexivity|]. cbn. rewrite IH. lia. Qed.

(** An MD5 digest is sixteen bytes long. *)
Lemma digest_length msg : length (MD5.digest msg) = 16%nat.
Proof.
  unfold MD5.digest.
  destruct (MD5.blocks _ _ _) as [[[a b] c] d]. reflexivity.
Qed.

Lemma string_length_app s1 s2 :
  String.length (s1 +:+ s2) = (String.length s1 + String.length s2)%nat.
Proof.
  induction s1 as [|a s1 IH]; [reflexivity|].
  change (String a s1 +:+ s2) with (String a (s1 +:+ s2)).
  cbn [String.length]. now rewrite IH.
Qed.

Lemma is_hex_not_slash c : is_hex c -> Os.is_slash c = false.
Proof.
  unfold is_hex. cbn. intros H.
  repeat (destruct H as [<-|H]; [reflexivity|]). destruct H.
Qed.

Lemma drop_while_skip f l1 l2 :
  Forall (fun c => f c = true) l1 ->
  Os.drop_while f (l1 ++ l2) = Os.drop_while f l2.
Proof.
  induction 1 as [|c l1 Hc Hl IH]; [reflexivity|]. cbn. now rewrite Hc.
Qed.

End HexFacts.

(** ** Properties of app/streamlit-chat.py *)

Module ChatFacts.
Import Chat.

(** *** The index name *)

Lemma unique_string_inj_path j1 j2 m :
  unique_string j1 m = unique_string j2 m -> j1 = j2.
Proof. unfold unique_string. apply string_app_inv_tail. Qed.

Lemma unique_string_inj_model j m1 m2 :
  unique_string j m1 = unique_string j m2 -> m1 = m2.
Proof.
  unfold unique_string. intros H.
  apply (inj (String.app j)) in H. now apply (inj (String.app "_")) in H.
Qed.

(** When no model name holds an underscore, the last underscore of the
    hashed string separates the path from the model. *)
Lemma unique_string_inj_underscore_free j1 m1 j2 m2 :
  underscore_free m1 -> underscore_free m2 ->
  unique_string j1 m1 = unique_string j2 m2 -> j1 = j2 /\ m1 = m2.
Proof.
  unfold unique_string, underscore_free. intros H1 H2 Heq.
  apply (f_equal list_ascii_of_string) in Heq. rewrite !chars_app in Heq.
  apply (f_equal (@rev ascii)) in Heq. rewrite !rev_app_distr in Heq.
  cbn [list_ascii_of_string rev app] in Heq. rewrite <- !app_assoc in Heq.
  cbn [app] in Heq.
  apply first_occurrence in Heq as [Hm Hj]; [|now apply Forall_rev..].
  split; apply chars_inj.
  - apply (f_equal (@rev ascii)) in Hj. now rewrite !rev_involutive in Hj.
  - apply (f_equal (@rev ascii)) in Hm. now rewrite !rev_involutive in Hm.
Qed.

Lemma unique_string_differs j1 m1 j2 m2 :
  (j1, m1) <> (j2, m2) ->
  j1 = j2 \/ m1 = m2 \/ (underscore_free m1 /\ underscore_free m2) ->
  unique_string j1 m1 <> unique_string j2 m2.
Proof.
  intros Hne [->|[->|[H1 H2]]] Heq; apply Hne.
  - now rewrite (unique_string_inj_model _ _ _ Heq).
  - now rewrite (unique_string_inj_path _ _ _ Heq).
  - now destruct (unique_string_inj_underscore_free _ _ _ _ H1 H2 Heq) as [-> ->].
Qed.

(** The three embedding models that the sidebar offers. *)
Lemma offered_models_underscore_free :
  underscore_free "sentence-transformers/all-MiniLM-L6-v2"
  /\ underscore_free "sentence-transformers/all-distilroberta-v1"
  /\ underscore_free "sentence-transformers/paraphrase-MiniLM-L6-v2".
Proof. unfold underscore_free. split_and!; repeat constructor; discriminate. Qed.

(** Two index names are equal exactly when the two digests are. *)
Lemma get_index_name_eq_iff j1 m1 j2 m2 :
  get_index_name j1 m1 = get_index_name j2 m2
  <-> MD5.hexdigest (unique_string j1 m1) = MD5.hexdigest (unique_string j2 m2).
Proof.
  unfold get_index_name. split; [|now intros ->].
  apply (inj (String.app "faiss_index_")).
Qed.

(** *** Paths of the persisted index *)

Lemma index_path_of_eq j m :
  index_path_of j m
  = "./faiss_indices/faiss_index_" +:+ MD5.hexdigest (unique_string j m).
Proof.
  unfold index_path_of, get_index_name.
  generalize (MD5.hexdigest (unique_string j m)). intros h. reflexivity.
Qed.

Lemma index_files_of_folder folder :
  folder <> "" ->
  exists sep, faiss_file folder = folder +:+ sep +:+ "index.faiss"
              /\ pkl_file folder = folder +:+ sep +:+ "index.pkl".
Proof.
  intros Hne. unfold faiss_file, pkl_file, Os.join. cbn [startswith String.prefix].
  destruct (rev (list_ascii_of_string folder)) as [|c l] eqn:E.
  - destruct Hne. apply chars_inj. apply (f_equal (@rev ascii)) in E.
    now rewrite rev_involutive in E.
  - destruct (Os.is_slash c); [exists ""|exists "/"]; split; reflexivity.
Qed.

(** The four paths that building an index touches are pairwise distinct
    and none is empty. *)
Lemma index_paths_distinct j m :
  let folder := index_path_of j m in
  folder <> "" /\ faiss_file folder <> "" /\ pkl_file folder <> ""
  /\ folder <> FAISS_INDEX_DIR
  /\ faiss_file folder <> FAISS_INDEX_DIR /\ pkl_file folder <> FAISS_INDEX_DIR
  /\ faiss_file folder <> folder /\ pkl_file folder <> folder
  /\ faiss_file folder <> pkl_file folder.
Proof.
  intros folder.
  assert (Hfolder : folder = FAISS_INDEX_DIR +:+ ("/faiss_index_" +:+
                      MD5.hexdigest (unique_string j m))).
  { unfold folder. now rewrite index_path_of_eq. }
  assert (Hne : folder <> "") by (rewrite Hfolder; discriminate).
  destruct (index_files_of_folder folder Hne) as (sep & Hf & Hp).
  assert (Hlong : forall t, folder +:+ t <> FAISS_INDEX_DIR).
  { intros t. rewrite Hfolder, string_app_assoc.
    apply string_app_ne_self. discriminate. }
  assert (Hsep : forall t, t <> "" -> sep +:+ t <> "")
    by (intros t Ht; destruct sep; [exact Ht|discriminate]).
  rewrite Hf, Hp. split_and!.
  - exact Hne.
  - rewrite Hfolder. discriminate.
  - rewrite Hfolder. discriminate.
  - rewrite Hfolder. now apply string_app_ne_self.
  - apply Hlong.
  - apply Hlong.
  - apply string_app_ne_self, Hsep. discriminate.
  - apply string_app_ne_self, Hsep. discriminate.
  - intros H. apply (inj (String.app folder)) in H.
    apply (inj (String.app sep)) in H. discriminate.
Qed.

(** The index lies directly in [FAISS_INDEX_DIR], which lies in the
    current directory. *)
Lemma hexdigest_length msg : String.length (MD5.hexdigest msg) = 32%nat.
Proof.
  unfold MD5.hexdigest. now rewrite HexFacts.hex_length, HexFacts.digest_length.
Qed.

Lemma dirname_index_path j m : Os.dirname (index_path_of j m) = FAISS_INDEX_DIR.
Proof.
  rewrite index_path_of_eq. unfold Os.dirname.
  rewrite chars_app, rev_app_distr, HexFacts.drop_while_skip; [reflexivity|].
  apply Forall_rev. eapply Forall_impl; [apply HexFacts.hex_chars|].
  intros c Hc. now rewrite (HexFacts.is_hex_not_slash c Hc).
Qed.

Lemma ancestors_index_dir : Os.ancestors FAISS_INDEX_DIR = [].
Proof. reflexivity. Qed.

Lemma ancestors_index_path j m :
  Os.ancestors (index_path_of j m) = [FAISS_INDEX_DIR].
Proof.
  unfold Os.ancestors.
  replace (String.length (index_path_of j m)) with 60%nat
    by (now rewrite index_path_of_eq, HexFacts.string_length_app,
          hexdigest_length).
  cbn [Os.ancestors_from]. rewrite dirname_index_path. reflexivity.
Qed.

(** *** Loading, building and deleting the index *)

Section WithEmbedding.
Context {vector : Type} (embed : string -> string -> vector).
Implicit Types st : app_state vector.

Lemma docstore_of_chunks (chunks : list chunk) :
  zip_with (fun t md => Document t (fst md) (snd md))
           (map content chunks)
           (map (fun c => (data_link c, chunk_id c)) chunks)
  = map (fun c => Document (content c) (data_link c) (chunk_id c)) chunks.
Proof. induction chunks as [|c chunks IH]; [reflexivity|]. cbn. now rewrite IH. Qed.

Lemma read_index_found p vs st :
  files st !! p = Some (File (FaissIndex vs)) -> read_index p st = (Ok vs, st).
Proof. intros H. unfold read_index. now rewrite H. Qed.

Lemma read_index_inv p st vs st' :
  read_index p st = (Ok vs, st') ->
  st' = st /\ files st !! p = Some (File (FaissIndex vs)).
Proof.
  unfold read_index. intros H.
  destruct (files st !! p) as [[[]|]|]; now simplify_eq.
Qed.

Lemma load_local_persisted folder model v st :
  persisted_at (files st) folder v ->
  load_local folder model st
  = (Ok (VectorStore model (index_vectors v) (docstore v)), st).
Proof.
  intros (_ & Hf & Hp). unfold load_local.
  erewrite bind_ok by (apply read_index_found; exact Hf).
  erewrite bind_ok by (apply read_file_found; exact Hp).
  reflexivity.
Qed.

(** The branch of line 103: the folder exists and is read back. *)
Lemma load_or_create_loads chunks m j v st :
  persisted_at (files st) (index_path_of j m) v ->
  load_or_create_vector_store embed chunks m j st
  = (Ok (VectorStore m (index_vectors v) (docstore v)), st).
Proof.
  intros Hv. unfold load_or_create_vector_store.
  erewrite bind_ok by (apply path_exists_found; destruct Hv as [-> _]; eauto).
  now apply load_local_persisted.
Qed.

(** [FAISS.from_texts] on the texts of at least one chunk. *)
Lemma from_texts_builds chunks m st :
  chunks <> [] ->
  from_texts embed m (map content chunks)
             (map (fun c => (data_link c, chunk_id c)) chunks) st
  = (Ok (built_store embed m chunks),
     AppState (files st)
              (embedded st ++ map (fun t => (m, t)) (map content chunks))).
Proof.
  intros Hne. unfold from_texts. erewrite bind_ok by reflexivity.
  destruct chunks as [|c chunks]; [now destruct Hne|].
  unfold ret. now rewrite docstore_of_chunks.
Qed.

(** [FAISS.from_texts] on no text at all. *)
Lemma from_texts_empty m mds st :
  from_texts embed m [] mds st = (Err IndexError, st).
Proof.
  unfold from_texts. erewrite bind_ok by reflexivity.
  cbn. rewrite app_nil_r. now destruct st.
Qed.

(** A store that [FAISS.from_texts] answered was built from a text. *)
Lemma from_texts_inv chunks m st v st' :
  from_texts embed m (map content chunks)
             (map (fun c => (data_link c, chunk_id c)) chunks) st
  = (Ok v, st') ->
  chunks <> [].
Proof.
  intros Hrun ->. cbn [map] in Hrun. now rewrite from_texts_empty in Hrun.
Qed.

(** The folder of the index, once [FAISS_INDEX_DIR] is a directory. *)
Lemma makedirs_index_path j m st :
  files st !! FAISS_INDEX_DIR = Some Dir ->
  (forall c, files st !! index_path_of j m <> Some (File c)) ->
  Os.makedirs (index_path_of j m) st
  = (Ok tt, AppState (<[index_path_of j m := Dir]> (files st)) (embedded st)).
Proof.
  intros Hroot Hfolder.
  destruct (index_paths_distinct j m) as (N1 & _).
  rewrite makedirs_deep; [|exact N1|].
  - rewrite ancestors_index_path. cbn [Os.with_dirs foldr].
    now rewrite (insert_id (files st) FAISS_INDEX_DIR Dir Hroot).
  - rewrite ancestors_index_path. repeat constructor; [exact Hfolder|].
    intros c. rewrite Hroot. discriminate.
Qed.

Lemma create_vector_store_builds chunks m j st :
  chunks <> [] ->
  nothing_at (files st) (index_path_of j m) ->
  (forall c, files st !! FAISS_INDEX_DIR <> Some (File c)) ->
  create_vector_store embed chunks m j st
  = (Ok (built_store embed m chunks, index_path_of j m),
     AppState (files_after_build embed (files st) chunks m j)
              (embedded st ++ map (fun t => (m, t)) (map content chunks))).
Proof.
  intros Hne (Hfolder & Hfaiss & Hpkl) Hroot.
  destruct (index_paths_distinct j m)
    as (N1 & N2 & N3 & D1 & D2 & D3 & D4 & D5 & D6).
  unfold create_vector_store.
  erewrite bind_ok by (apply from_texts_builds; exact Hne).
  erewrite bind_ok
    by (apply makedirs_ok; [discriminate|apply ancestors_index_dir|exact Hroot]).
  erewrite bind_ok.
  2:{ unfold save_local.
      erewrite bind_ok.
      2:{ apply makedirs_index_path; cbn [files].
          - apply lookup_insert_eq.
          - rewrite lookup_insert_ne by congruence. rewrite Hfolder. discriminate. }
      erewrite bind_ok.
      2:{ apply write_file_ok; [exact N2|]. cbn [files].
          rewrite lookup_insert_ne by congruence.
          rewrite lookup_insert_ne by congruence. rewrite Hfaiss. discriminate. }
      apply write_file_ok; [exact N3|]. cbn [files].
      rewrite lookup_insert_ne by congruence.
      rewrite lookup_insert_ne by congruence.
      rewrite lookup_insert_ne by congruence. rewrite Hpkl. discriminate. }
  reflexivity.
Qed.

(** What a call of [create_vector_store] that succeeded has done: it had
    a chunk to embed, and the store it answers is on disk under the path
    it answers. *)
Lemma create_vector_store_done chunks m j st v path st' :
  create_vector_store embed chunks m j st = (Ok (v, path), st') ->
  chunks <> []
  /\ v = built_store embed m chunks
  /\ path = index_path_of j m
  /\ persisted_at (files st') (index_path_of j m) v.
Proof.
  destruct (index_paths_distinct j m)
    as (N1 & N2 & N3 & D1 & D2 & D3 & D4 & D5 & D6).
  unfold create_vector_store. intros Hrun.
  apply bind_inv_ok in Hrun as (v0 & st0 & Hfrom & Hrun).
  pose proof (from_texts_inv _ _ _ _ _ Hfrom) as Hne.
  rewrite (from_texts_builds _ _ _ Hne) in Hfrom.
  injection Hfrom as <- <-.
  revert Hrun N1 N2 N3 D1 D2 D3 D4 D5 D6.
  generalize (index_path_of j m). intros folder Hrun N1 N2 N3 D1 D2 D3 D4 D5 D6.
  apply bind_inv_ok in Hrun as ([] & st1 & _ & Hrun).
  apply bind_inv_ok in Hrun as ([] & st2 & Hsave & Hrun).
  unfold ret in Hrun. injection Hrun as <- <- <-.
  split; [exact Hne|]. split; [reflexivity|]. split; [reflexivity|].
  unfold save_local in Hsave.
  apply bind_inv_ok in Hsave as ([] & st3 & Hmk & Hsave).
  apply makedirs_inv in Hmk as ->.
  apply bind_inv_ok in Hsave as ([] & st4 & Hwr & Hsave).
  apply write_file_inv in Hwr as ->.
  apply write_file_inv in Hsave as ->. cbn [files].
  unfold persisted_at. cbn [files]. split_and!.
  - rewrite lookup_insert_ne by congruence.
    rewrite lookup_insert_ne by congruence.
    apply with_dirs_lookup_eq. apply elem_of_cons. now left.
  - rewrite lookup_insert_ne by congruence. apply lookup_insert_eq.
  - apply lookup_insert_eq.
Qed.

Lemma files_after_build_persisted fs chunks m j :
  persisted_at (files_after_build embed fs chunks m j) (index_path_of j m)
               (built_store embed m chunks).
Proof.
  destruct (index_paths_distinct j m)
    as (N1 & N2 & N3 & D1 & D2 & D3 & D4 & D5 & D6).
  unfold persisted_at, files_after_build. split_and!.
  - rewrite lookup_insert_ne by congruence.
    rewrite lookup_insert_ne by congruence. apply lookup_insert_eq.
  - rewrite lookup_insert_ne by congruence. apply lookup_insert_eq.
  - apply lookup_insert_eq.
Qed.

(** The branch of line 111: nothing is there, the store is built, saved
    and returned. *)
Lemma load_or_create_builds chunks m j st :
  chunks <> [] ->
  nothing_at (files st) (index_path_of j m) ->
  (forall c, files st !! FAISS_INDEX_DIR <> Some (File c)) ->
  load_or_create_vector_store embed chunks m j st
  = (Ok (built_store embed m chunks),
     AppState (files_after_build embed (files st) chunks m j)
              (embedded st ++ map (fun t => (m, t)) (map content chunks))).
Proof.
  intros Hne Hnone Hroot. unfold load_or_create_vector_store.
  erewrite bind_ok by (apply path_exists_missing; apply Hnone).
  cbv beta iota.
  erewrite bind_ok by (apply create_vector_store_builds; assumption).
  reflexivity.
Qed.

(** Line 111 on an empty list of chunks: [FAISS.from_texts] raises, and
    nothing is created. *)
Lemma load_or_create_empty m j st :
  files st !! index_path_of j m = None ->
  load_or_create_vector_store embed [] m j st = (Err IndexError, st).
Proof.
  intros Hnone. unfold load_or_create_vector_store.
  erewrite bind_ok by (apply path_exists_missing; exact Hnone).
  cbv beta iota. erewrite bind_err; [reflexivity|].
  unfold create_vector_store. cbn [map].
  erewrite bind_err by apply from_texts_empty. reflexivity.
Qed.

(** Line 103 decides by the path alone: a folder that lacks the index
    file is read all the same, the read fails, and nothing is built. *)
Lemma load_or_create_incomplete chunks m j st :
  files st !! index_path_of j m = Some Dir ->
  files st !! faiss_file (index_path_of j m) = None ->
  load_or_create_vector_store embed chunks m j st
  = (Err RuntimeError, st).
Proof.
  intros Hdir Hnone. unfold load_or_create_vector_store.
  erewrite bind_ok by (apply path_exists_found; eauto).
  cbv beta iota. unfold load_local.
  erewrite bind_err; [reflexivity|]. unfold read_index. now rewrite Hnone.
Qed.

(** Line 103 with something at the path and the two files readable. *)
Lemma load_or_create_reads chunks m j vs docs st :
  is_Some (files st !! index_path_of j m) ->
  files st !! faiss_file (index_path_of j m) = Some (File (FaissIndex vs)) ->
  files st !! pkl_file (index_path_of j m) = Some (File (Pickle docs)) ->
  load_or_create_vector_store embed chunks m j st
  = (Ok (VectorStore m vs docs), st).
Proof.
  intros Hsome Hidx Hpkl. unfold load_or_create_vector_store.
  erewrite bind_ok by (apply path_exists_found; exact Hsome).
  cbv beta iota. unfold load_local.
  erewrite bind_ok by (apply read_index_found; exact Hidx).
  erewrite bind_ok by (apply read_file_found; exact Hpkl).
  reflexivity.
Qed.

(** A call that answered a store has left the disk such that every later
    call, whatever its chunks, reads that store back. *)
Lemma load_or_create_done chunks m j st v st' :
  load_or_create_vector_store embed chunks m j st = (Ok v, st') ->
  forall chunks',
    load_or_create_vector_store embed chunks' m j st' = (Ok v, st').
Proof.
  unfold load_or_create_vector_store at 1. intros Hrun chunks'.
  apply bind_inv_ok in Hrun as (found & st0 & Hex & Hrun).
  apply path_exists_inv in Hex as [-> ->].
  case_bool_decide as Hfound.
  - unfold load_local in Hrun.
    apply bind_inv_ok in Hrun as (idx & st1 & Hidx & Hrun).
    apply read_index_inv in Hidx as [-> Hidx].
    apply bind_inv_ok in Hrun as (pkl & st2 & Hpkl & Hrun).
    apply read_file_inv in Hpkl as [-> Hpkl].
    destruct pkl; try discriminate.
    unfold ret in Hrun. injection Hrun as <- <-.
    now apply load_or_create_reads.
  - apply bind_inv_ok in Hrun as ([v0 path] & st1 & Hcre & Hrun).
    unfold ret in Hrun. injection Hrun as <- <-.
    apply create_vector_store_done in Hcre as (_ & -> & _ & Hdir & Hidx & Hpkl).
    apply load_or_create_reads; [rewrite Hdir; eauto|exact Hidx|exact Hpkl].
Qed.

(** The delete button when nothing is at the path of the index. *)
Lemma delete_absent m j st :
  files st !! index_path_of j m = None ->
  delete_existing_vector_store (vector := vector) j m st
  = (Ok (Info "No existing FAISS vector store found to delete."), st).
Proof.
  intros Hnone. unfold delete_existing_vector_store.
  erewrite bind_ok by (apply path_exists_missing; exact Hnone). reflexivity.
Qed.

(** The delete button when the path of the index is a regular file. *)
Lemma delete_regular_file m j c st :
  files st !! index_path_of j m = Some (File c) ->
  delete_existing_vector_store (vector := vector) j m st
  = (Ok (Success "Existing FAISS vector store deleted."),
     AppState (delete (index_path_of j m) (files st)) (embedded st)).
Proof.
  intros Hfile. unfold delete_existing_vector_store.
  erewrite bind_ok by (apply path_exists_found; eauto).
  cbv beta iota.
  erewrite bind_ok by (eapply remove_file; exact Hfile). reflexivity.
Qed.

(** The delete button on an index as [save_local] leaves it: the path is
    a folder, [os.remove] refuses it and nothing is removed. *)
Lemma delete_persisted m j v st :
  persisted_at (files st) (index_path_of j m) v ->
  delete_existing_vector_store (vector := vector) j m st
  = (Err IsADirectoryError, st).
Proof.
  intros (Hdir & _ & _). unfold delete_existing_vector_store.
  erewrite bind_ok by (apply path_exists_found; eauto).
  cbv beta iota.
  erewrite bind_err by (apply remove_dir; exact Hdir). reflexivity.
Qed.

End WithEmbedding.
End ChatFacts.

(** ** The two crawlers on the three-page site *)

Module SiteExamples.
Import Example.

(** [scrape_site] reaches the three pages and stops at the link back. *)
Lemma scrape_site_three_pages :
  exists st',
    SiteScript.scrape_site (world_of three_pages) 5 A "www.site.test" 3 0
                           SiteScript.site_initial
    = Returned st'
    /\ SiteScript.visited_urls st' = {[A; B; C]}
    /\ SiteScript.fetched_urls st' = [A; B; C].
Proof.
  exists (SiteScript.SiteState {[A; B; C]} [A; B; C]
            [(A, "page A"); (B, "page B"); (C, "page C")]).
  split; [vm_compute; reflexivity|]. split; reflexivity.
Qed.

(** When the driver cannot load B, [scrape_site] goes on to C and saves
    the text of A and C only. *)
Lemma scrape_site_b_unreachable :
  exists st',
    SiteScript.scrape_site (world_of b_unreachable) 5 A "www.site.test" 3 0
                           SiteScript.site_initial
    = Returned st'
    /\ SiteScript.visited_urls st' = {[A; B; C]}
    /\ SiteScript.saved st' = [(A, "page A"); (C, "page C")].
Proof.
  exists (SiteScript.SiteState {[A; B; C]} [A; B; C] [(A, "page A"); (C, "page C")]).
  split; [vm_compute; reflexivity|]. split; reflexivity.
Qed.

(** When the driver cannot load the start page, [scrape_with_content]
    stores nothing and returns. *)
Lemma scrape_with_content_unreachable :
  Crawler.scrape_with_content (world_of (fun _ => FetchFails)) 2
    [Crawler.VStr A; Crawler.VDriver] Crawler.crawl_initial
  = Returned (Crawler.CrawlState {[A]} [] [A]).
Proof. vm_compute. reflexivity. Qed.

End SiteExamples.

(** * The specified properties *)

(** C1. On every web (each page lists finitely many links, cycles
    allowed) both crawlers end, given fuel beyond the depth of their
    recursion, and the URLs they hand to the driver are pairwise distinct
    and were not in the visited set before: [scrape_site] within the
    domain scope and the depth bound, [scrape_with_content] after its
    check of [visited]. *)
Theorem C1_crawl_fetches_once_and_terminates
    (W : world) (base_url domain : string) (max_depth current_depth : Z)
    (st : SiteScript.site_state) (cst : Crawler.crawl_state) (fuel : nat) :
  (1 + Z.to_nat (max_depth + 1 - current_depth) < fuel)%nat ->
  (exists st',
     final_state (SiteScript.scrape_site W fuel base_url domain max_depth
                                         current_depth st) = Some st'
     /\ fetches_once (SiteScript.visited_urls st) (SiteScript.fetched_urls st)
                     (SiteScript.fetched_urls st'))
  /\ (exists cst',
        Crawler.scrape_with_content W fuel
          [Crawler.VStr base_url; Crawler.VDriver] cst = Returned cst'
        /\ fetches_once (Crawler.visited cst) (Crawler.fetched cst)
                        (Crawler.fetched cst')).
Proof.
  intros Hfuel. split.
  - apply SiteFacts.scrape_site_fetches_once. lia.
  - destruct fuel as [|[|fuel]]; [lia..|].
    apply CrawlerFacts.scrape_with_content_fetches_once.
Qed.

Lemma C1_crawl_fetches_once_and_terminates_witness :
  (1 + Z.to_nat (3 + 1 - 0) < 6)%nat
  /\ (exists st',
        final_state (SiteScript.scrape_site (Example.world_of Example.three_pages)
                       6 Example.A "www.site.test" 3 0 SiteScript.site_initial)
        = Some st'
        /\ fetches_once ∅ [] (SiteScript.fetched_urls st'))
  /\ (exists cst',
        Crawler.scrape_with_content (Example.world_of Example.three_pages) 6
          [Crawler.VStr Example.A; Crawler.VDriver] Crawler.crawl_initial
        = Returned cst'
        /\ fetches_once ∅ [] (Crawler.fetched cst')).
Proof.
  split; [cbn; lia|].
  apply (C1_crawl_fetches_once_and_terminates
           (Example.world_of Example.three_pages) Example.A "www.site.test"
           3 0 SiteScript.site_initial Crawler.crawl_initial 6).
  cbn; lia.
Defined.

(** C5. On the three-page site (A links to B and C, C links back to A)
    [scrape_with_content] started at A returns with the visited set
    [{A}]: the call on line 37 passes three arguments to a function of
    two, the [TypeError] is caught on line 38, and neither B nor C is
    ever visited. *)
Theorem C5_scrape_with_content_visits_only_start (fuel : nat) :
  exists st',
    Crawler.scrape_with_content (Example.world_of Example.three_pages)
      (S (S fuel)) [Crawler.VStr Example.A; Crawler.VDriver] Crawler.crawl_initial
    = Returned st'
    /\ Crawler.visited st' = {[Example.A]}
    /\ Crawler.fetched st' = [Example.A]
    /\ (Example.B ∉ Crawler.visited st')
    /\ (Example.C ∉ Crawler.visited st').
Proof.
  rewrite CrawlerFacts.scrape_with_content_eq.
  exists (Crawler.CrawlState {[Example.A]}
            [("https://site.test/a#intro", "Welcome"); ("about", "About us")]
            [Example.A]).
  split; [vm_compute; reflexivity|]. cbn [Crawler.visited Crawler.fetched].
  split; [reflexivity|]. split; [reflexivity|].
  split; apply not_elem_of_singleton; discriminate.
Qed.

(** C6. On the three-page site with a source of B that the parser
    rejects, [scrape_site] started at A ends with the parser's exception:
    the crawl is over after A and B, and C is never visited. *)
Theorem C6_scrape_site_parse_failure_aborts (fuel : nat) :
  exists st',
    SiteScript.scrape_site (Example.world_of Example.b_rejected) (S (S fuel))
      Example.A "www.site.test" 3 0 SiteScript.site_initial
    = Raised ParserRejectedMarkup st'
    /\ SiteScript.fetched_urls st' = [Example.A; Example.B]
    /\ SiteScript.saved st' = [(Example.A, "page A")]
    /\ (Example.C ∉ SiteScript.visited_urls st').
Proof.
  exists (SiteScript.SiteState {[Example.A; Example.B]} [Example.A; Example.B]
            [(Example.A, "page A")]).
  split; [vm_compute; reflexivity|].
  cbn [SiteScript.visited_urls SiteScript.fetched_urls SiteScript.saved].
  split; [reflexivity|]. split; [reflexivity|].
  intros H. apply elem_of_union in H as [H|H];
    apply elem_of_singleton in H; discriminate.
Qed.

(** C8, as the code has it.  After [scrape_with_content] ran on an
    http(s) page, no key of [data_content] starts with ['#'], provided
    none did before: a [data-link] that starts with ['#'] is stored as
    its [urljoin] resolution against the page URL, an http(s) URL, and
    every other [data-link] is stored as it stands in the page. *)
Theorem C8_stored_links_never_fragments
    (W : world) (fuel : nat) (base_url : string) (st : Crawler.crawl_state) :
  resolves_fragments W ->
  is_http_url base_url = true ->
  (2 <= fuel)%nat ->
  (forall k, k ∈ keys (Crawler.data_content st) -> startswith k "#" = false) ->
  exists st',
    Crawler.scrape_with_content W fuel
      [Crawler.VStr base_url; Crawler.VDriver] st = Returned st'
    /\ (forall k, k ∈ keys (Crawler.data_content st') ->
          startswith k "#" = false)
    /\ (forall k, k ∈ keys (Crawler.data_content st') ->
          k ∈ keys (Crawler.data_content st)
          \/ exists el, el ∈ page_elements W base_url
               /\ ((startswith (fst el) "#" = true
                    /\ k = urljoin W base_url (fst el)
                    /\ is_http_url k = true)
                   \/ (startswith (fst el) "#" = false /\ k = fst el))).
Proof.
  intros Hjoin Hbase Hfuel Hst.
  destruct fuel as [|[|fuel]]; [lia..|].
  rewrite CrawlerFacts.scrape_with_content_eq.
  destruct (decide (base_url ∈ Crawler.visited st)).
  { exists st. split; [reflexivity|]. split; [exact Hst|]. intros k Hk. now left. }
  eexists. split; [reflexivity|].
  assert (Hkeys : forall k,
    k ∈ keys (Crawler.data_content (after_page W base_url st)) ->
    k ∈ keys (Crawler.data_content st)
    \/ exists el, el ∈ page_elements W base_url
         /\ ((startswith (fst el) "#" = true
              /\ k = urljoin W base_url (fst el)
              /\ is_http_url k = true)
             \/ (startswith (fst el) "#" = false /\ k = fst el))).
  { intros k Hk. unfold after_page, page_elements in *.
    cbn [Crawler.data_content] in Hk.
    destruct (driver_get W base_url) as [| |sp]; [now left..|].
    apply StoreFacts.keys_store_elements in Hk as [Hk|(el & Hel & Hcase)];
      [now left|].
    right. exists el. split; [exact Hel|].
    destruct Hcase as [[Hfrag ->]|[Hplain ->]]; [left|right; now split].
    split; [exact Hfrag|]. split; [reflexivity|]. now apply Hjoin. }
  split; [|exact Hkeys].
  intros k Hk. destruct (Hkeys k Hk) as [Hold|(el & _ & [(_ & _ & Hhttp)|[Hplain ->]])].
  - now apply Hst.
  - now apply StoreFacts.http_url_not_fragment.
  - exact Hplain.
Qed.

Lemma C8_stored_links_never_fragments_witness :
  exists st',
    Crawler.scrape_with_content (Example.world_of Example.three_pages) 2
      [Crawler.VStr Example.A; Crawler.VDriver] Crawler.crawl_initial = Returned st'
    /\ (forall k, k ∈ keys (Crawler.data_content st') ->
          startswith k "#" = false)
    /\ (forall k, k ∈ keys (Crawler.data_content st') ->
          k ∈ keys (Crawler.data_content Crawler.crawl_initial)
          \/ exists el,
               el ∈ page_elements (Example.world_of Example.three_pages) Example.A
               /\ ((startswith (fst el) "#" = true
                    /\ k = urljoin (Example.world_of Example.three_pages)
                                   Example.A (fst el)
                    /\ is_http_url k = true)
                   \/ (startswith (fst el) "#" = false /\ k = fst el))).
Proof.
  apply (C8_stored_links_never_fragments
           (Example.world_of Example.three_pages) 2 Example.A Crawler.crawl_initial).
  - apply StoreFacts.ex_urljoin_resolves.
  - reflexivity.
  - lia.
  - intros k Hk. cbn in Hk. now apply elem_of_nil in Hk.
Defined.

(** C8, as stated, fails: the page A carries an element whose
    [data-link] is the relative reference ["about"]; it is stored under
    that very key, which is not an absolute URL. *)
Lemma C8_relative_link_stored_verbatim :
  exists st',
    Crawler.scrape_with_content (Example.world_of Example.three_pages) 2
      [Crawler.VStr Example.A; Crawler.VDriver] Crawler.crawl_initial = Returned st'
    /\ "about" ∈ keys (Crawler.data_content st')
    /\ is_complete_url "about" = false
    /\ is_http_url "about" = false.
Proof.
  exists (Crawler.CrawlState {[Example.A]}
            [("https://site.test/a#intro", "Welcome"); ("about", "About us")]
            [Example.A]).
  split; [vm_compute; reflexivity|]. split; [|split; reflexivity].
  cbn. apply elem_of_cons. right. apply elem_of_cons. now left.
Qed.

(** C2 fails in the code.  [get_index_name] is to give a unique index
    name to each pair of a JSON file path and an embedding model name,
    and the fingerprints of two pairs that differ in a component are to
    differ.  The pairs [("./data/chunks_all", "MiniLM")] and
    [("./data/chunks", "all_MiniLM")] differ in both components, yet line
    24 joins each of them to the string ["./data/chunks_all_MiniLM"], and
    both get the index name of that string. *)
Theorem C2_distinct_pairs_share_index_name :
  ("./data/chunks_all", "MiniLM") <> ("./data/chunks", "all_MiniLM")
  /\ Chat.unique_string "./data/chunks_all" "MiniLM" = "./data/chunks_all_MiniLM"
  /\ Chat.unique_string "./data/chunks" "all_MiniLM" = "./data/chunks_all_MiniLM"
  /\ Chat.get_index_name "./data/chunks_all" "MiniLM"
     = "faiss_index_dd82ba327865b7bb99163c047de2e0c7"
  /\ Chat.get_index_name "./data/chunks" "all_MiniLM"
     = "faiss_index_dd82ba327865b7bb99163c047de2e0c7".
Proof.
  split; [discriminate|]. split; [reflexivity|]. split; [reflexivity|].
  split; vm_compute; reflexivity.
Qed.

(** C3, as the code has it.  On a state [hit] in which an index is
    persisted at the path of the fingerprint (the folder with its two
    files), [load_or_create_vector_store] returns the vectors and
    documents read back from it and leaves the state as it was, so that
    no embedding is computed, whatever the chunk list is.  On a state
    [miss] with nothing at that path and no regular file in the place of
    [FAISS_INDEX_DIR], and for a chunk list that is not empty, it returns
    the store built from the chunks, has embedded the text of each chunk
    once, in order, and leaves that store persisted at the path. *)
Theorem C3_load_or_build
    {vector : Type} (embed : string -> string -> vector)
    (chunks : list chunk) (embedding_model_name json_file_path : string)
    (hit miss : app_state vector) (v : Chat.vector_store vector) :
  let index_path := Chat.index_path_of json_file_path embedding_model_name in
  (Chat.persisted_at (files hit) index_path v ->
   Chat.load_or_create_vector_store embed chunks embedding_model_name
                                    json_file_path hit
   = (Ok (Chat.VectorStore embedding_model_name
            (Chat.index_vectors v) (Chat.docstore v)), hit))
  /\ (chunks <> [] ->
      nothing_at (files miss) index_path ->
      (forall c, files miss !! Chat.FAISS_INDEX_DIR <> Some (File c)) ->
      exists miss',
        Chat.load_or_create_vector_store embed chunks embedding_model_name
                                         json_file_path miss
        = (Ok (built_store embed embedding_model_name chunks), miss')
        /\ embedded miss'
           = embedded miss
             ++ map (fun c => (embedding_model_name, content c)) chunks
        /\ Chat.persisted_at (files miss') index_path
             (built_store embed embedding_model_name chunks)).
Proof.
  intros index_path. split.
  - intros Hhit. now apply ChatFacts.load_or_create_loads.
  - intros Hne Hmiss Hroot.
    eexists. split; [now apply ChatFacts.load_or_create_builds|].
    cbn [embedded files]. split.
    + now rewrite map_map.
    + apply ChatFacts.files_after_build_persisted.
Qed.

Lemma C3_load_or_build_witness :
  let index_path :=
    Chat.index_path_of Example.chunks_file Example.model_name in
  let built := built_store Example.ex_embed Example.model_name Example.two_chunks in
  let hit :=
    AppState (files_after_build Example.ex_embed ∅ Example.two_chunks
                Example.model_name Example.chunks_file) [] in
  Chat.load_or_create_vector_store Example.ex_embed Example.two_chunks
    Example.model_name Example.chunks_file hit
  = (Ok built, hit)
  /\ exists miss',
       Chat.load_or_create_vector_store Example.ex_embed Example.two_chunks
         Example.model_name Example.chunks_file Example.no_files
       = (Ok built, miss')
       /\ embedded miss'
          = [(Example.model_name, "Hello world.");
             (Example.model_name, "This is page A.")]
       /\ Chat.persisted_at (files miss') index_path built.
Proof.
  intros index_path built hit.
  destruct (C3_load_or_build Example.ex_embed Example.two_chunks
              Example.model_name Example.chunks_file hit Example.no_files built)
    as [Hhit Hmiss].
  split.
  - apply Hhit. apply ChatFacts.files_after_build_persisted.
  - apply Hmiss.
    + discriminate.
    + repeat split; apply lookup_empty.
    + intros c. cbn [files Example.no_files]. rewrite lookup_empty. discriminate.
Defined.

(** C3, as stated, fails for the empty chunk list: with no index
    persisted, [FAISS.from_texts] raises [IndexError]; no store is
    returned and nothing is persisted. *)
Lemma C3_empty_chunk_list_is_not_built :
  nothing_at (files (Example.no_files))
             (Chat.index_path_of Example.chunks_file Example.model_name)
  /\ Chat.load_or_create_vector_store Example.ex_embed []
       Example.model_name Example.chunks_file Example.no_files
     = (Err IndexError, Example.no_files).
Proof.
  split; [repeat split; apply lookup_empty|].
  apply ChatFacts.load_or_create_empty. apply lookup_empty.
Qed.

(** C4. When the keys of the dataset read from [input_file] are pairwise
    distinct, every run of [chunk_content] that returns has written a
    chunk list in which piece [i] of the text stored under a link has the
    identifier ["{link}_chunk_{i}"], every chunk has such an identifier,
    and no identifier occurs twice. *)
Theorem C4_chunk_ids_unique
    {vector : Type} (split_text : Z -> Z -> string -> list string)
    (input_file output_file : string) (chunk_size chunk_overlap : Z)
    (data : list (string * string)) (st st' : app_state vector) (n : nat) :
  files st !! input_file = Some (File (JsonDataset data)) ->
  NoDup (keys data) ->
  Chunker.chunk_content split_text input_file output_file
                        chunk_size chunk_overlap st
  = (Ok n, st') ->
  exists chunks,
    files st' !! output_file = Some (File (JsonChunks chunks))
    /\ n = length chunks
    /\ (forall link text i piece,
          (link, text) ∈ data ->
          split_text chunk_size chunk_overlap text !! i = Some piece ->
          Chunk link (link +:+ "_chunk_" +:+ pretty i) piece ∈ chunks)
    /\ (forall c, c ∈ chunks ->
          exists i : nat, chunk_id c = data_link c +:+ "_chunk_" +:+ pretty i)
    /\ NoDup (chunk_id <$> chunks).
Proof.
  intros Hin Hkeys Hrun.
  apply (ChunkerFacts.chunk_content_done split_text) with (data := data)
    in Hrun as (_ & -> & ->); [|exact Hin].
  exists (Chunker.all_chunks split_text chunk_size chunk_overlap data).
  cbn [files]. split; [apply lookup_insert_eq|]. split; [reflexivity|].
  split; [|split].
  - intros link text i piece Hitem Hpiece.
    apply ChunkerFacts.elem_of_all_chunks. exists (link, text).
    split; [exact Hitem|]. apply ChunkerFacts.elem_of_item_chunks.
    now exists i, piece.
  - intros c Hc. apply ChunkerFacts.elem_of_all_chunks in Hc as (item & _ & Hc).
    apply ChunkerFacts.elem_of_item_chunks in Hc as (i & piece & _ & ->).
    now exists i.
  - now apply ChunkerFacts.all_chunks_NoDup.
Qed.

Lemma C4_chunk_ids_unique_witness :
  let run :=
    Chunker.chunk_content Example.ex_split_text Example.dataset_file
      Example.chunks_file 15 3 (Example.with_dataset Example.one_page) in
  exists chunks,
    files (snd run) !! Example.chunks_file = Some (File (JsonChunks chunks))
    /\ 3%nat = length chunks
    /\ (forall link text i piece,
          (link, text) ∈ Example.one_page ->
          Example.ex_split_text 15 3 text !! i = Some piece ->
          Chunk link (link +:+ "_chunk_" +:+ pretty i) piece ∈ chunks)
    /\ (forall c, c ∈ chunks ->
          exists i : nat, chunk_id c = data_link c +:+ "_chunk_" +:+ pretty i)
    /\ NoDup (chunk_id <$> chunks).
Proof.
  intros run.
  apply (C4_chunk_ids_unique Example.ex_split_text Example.dataset_file
           Example.chunks_file 15 3 Example.one_page
           (Example.with_dataset Example.one_page) (snd run) 3).
  - reflexivity.
  - apply NoDup_singleton.
  - vm_compute. reflexivity.
Defined.

(** C9. After [load_or_create_vector_store] has built and saved an index
    from an empty disk, the delete button ends with [IsADirectoryError]:
    [save_local] made a folder, [os.remove] refuses folders, and the
    index stays persisted. *)
Theorem C9_delete_keeps_saved_index :
  exists st,
    Chat.load_or_create_vector_store Example.ex_embed Example.two_chunks
      Example.model_name Example.chunks_file Example.no_files
    = (Ok (built_store Example.ex_embed Example.model_name Example.two_chunks),
       st)
    /\ Chat.delete_existing_vector_store Example.chunks_file Example.model_name st
       = (Err IsADirectoryError, st)
    /\ Chat.persisted_at (files st)
         (Chat.index_path_of Example.chunks_file Example.model_name)
         (built_store Example.ex_embed Example.model_name Example.two_chunks).
Proof.
  eexists. split.
  - apply ChatFacts.load_or_create_builds.
    + discriminate.
    + repeat split; apply lookup_empty.
    + intros c. cbn [files Example.no_files]. rewrite lookup_empty. discriminate.
  - assert (Hsaved := ChatFacts.files_after_build_persisted Example.ex_embed ∅
                        Example.two_chunks Example.model_name Example.chunks_file).
    split; [|exact Hsaved].
    eapply ChatFacts.delete_persisted. exact Hsaved.
Qed.




(** * Further properties of the code *)

(** ** scrape_site_script.py: scope, depth, saved texts *)

Module SiteMore.
Import SiteScript.

(** A loop whose body calls log only URLs in [Q] logs only URLs in [Q]. *)
Lemma for_links_log {St : Type} (log : St -> list string) (Q : string -> Prop)
    follow (visit : string -> St -> outcome St) links :
  (forall l s s', l ∈ links -> follow l = true ->
     final_state (visit l s) = Some s' ->
     exists new, log s' = log s ++ new /\ Forall Q new) ->
  forall st st',
    final_state (for_links follow visit links st) = Some st' ->
    exists new, log st' = log st ++ new /\ Forall Q new.
Proof.
  induction links as [|l links IH]; intros Hvisit st st' Hfin.
  - cbn in Hfin. inversion Hfin; subst. exists []. now rewrite app_nil_r.
  - assert (Hrest : forall l0 s s', l0 ∈ links -> follow l0 = true ->
              final_state (visit l0 s) = Some s' ->
              exists new, log s' = log s ++ new /\ Forall Q new).
    { intros l0 s s' Hl0. apply Hvisit. now right. }
    cbn [for_links] in Hfin. destruct (follow l) eqn:Hf; [|now apply IH].
    destruct (visit l st) as [s1|e s1|] eqn:Hv.
    + destruct (Hvisit l st s1) as (new1 & Hlog1 & HQ1);
        [now left|exact Hf|now rewrite Hv|].
      destruct (IH Hrest s1 st' Hfin) as (new2 & Hlog2 & HQ2).
      exists (new1 ++ new2). split; [now rewrite Hlog2, Hlog1, app_assoc|].
      now apply Forall_app.
    + cbn in Hfin. inversion Hfin; subst.
      apply (Hvisit l st); [now left|exact Hf|now rewrite Hv].
    + discriminate.
Qed.

(** After a loop that returned, the key of every link it followed is in
    the set [V] of the final state, when each call of the body puts it
    there and no call takes anything out. *)
Lemma for_links_covers {St : Type} (V : St -> gset string)
    (key : string -> string) follow (visit : string -> St -> outcome St) links :
  (forall l s s', visit l s = Returned s' -> key l ∈ V s') ->
  (forall l s s', visit l s = Returned s' -> V s ⊆ V s') ->
  forall st st',
    for_links follow visit links st = Returned st' ->
    V st ⊆ V st'
    /\ forall l, l ∈ links -> follow l = true -> key l ∈ V st'.
Proof.
  intros Hkey Hmono. induction links as [|l links IH]; intros st st' Hrun.
  - cbn in Hrun. inversion Hrun; subst. split; [reflexivity|].
    intros l Hl. now apply elem_of_nil in Hl.
  - cbn [for_links] in Hrun. destruct (follow l) eqn:Hf.
    + destruct (visit l st) as [s1|e s1|] eqn:Hv; [|discriminate..].
      destruct (IH s1 st' Hrun) as [Hsub Hall].
      pose proof (Hmono l st s1 Hv) as Hsub1.
      pose proof (Hkey l st s1 Hv) as Hin1.
      split; [now transitivity (V s1)|].
      intros l0 Hl0 Hf0. apply elem_of_cons in Hl0 as [->|Hl0].
      * now apply Hsub.
      * now apply Hall.
    + destruct (IH st st' Hrun) as [Hsub Hall]. split; [exact Hsub|].
      intros l0 Hl0 Hf0. apply elem_of_cons in Hl0 as [->|Hl0].
      * congruence.
      * now apply Hall.
Qed.

Section WithWorld.
Context (W : world).

Lemma site_effect_refl st : site_effect W st st [].
Proof.
  unfold site_effect. cbn. rewrite !app_nil_r. split; [reflexivity|].
  split; [|reflexivity]. now rewrite union_empty_r_L.
Qed.

Lemma site_effect_trans st1 st2 st3 new1 new2 :
  site_effect W st1 st2 new1 -> site_effect W st2 st3 new2 ->
  site_effect W st1 st3 (new1 ++ new2).
Proof.
  intros (Hf1 & Hv1 & Hs1) (Hf2 & Hv2 & Hs2). unfold site_effect.
  rewrite Hf2, Hf1, Hv2, Hv1, Hs2, Hs1.
  rewrite omap_app, list_to_set_app_L, !app_assoc.
  split; [reflexivity|]. split; [|reflexivity]. now rewrite union_assoc_L.
Qed.

Lemma scrape_site_effect fuel :
  forall base_url domain max_depth current_depth st st',
    final_state (scrape_site W fuel base_url domain max_depth current_depth st)
    = Some st' ->
    exists new, site_effect W st st' new.
Proof.
  induction fuel as [|fuel IH];
    intros base_url domain max_depth current_depth st st' Hfin; [discriminate|].
  cbn [scrape_site] in Hfin.
  destruct (bool_decide (base_url ∈ visited_urls st) || (max_depth <? current_depth)).
  { inversion Hfin; subst. exists []. apply site_effect_refl. }
  assert (Hone : forall sv,
            sv = saved st ++ omap (fun u => pair u <$> page_text_of W u) [base_url] ->
            site_effect W st
              (SiteState ({[base_url]} ∪ visited_urls st)
                         (fetched_urls st ++ [base_url]) sv) [base_url]).
  { intros sv ->. unfold site_effect. cbn [fetched_urls visited_urls saved].
    split; [reflexivity|]. split; [|reflexivity].
    cbn. rewrite union_empty_r_L. apply union_comm_L. }
  assert (Hnone : (forall sp, driver_get W base_url <> Parsed sp) ->
            saved st
            = saved st ++ omap (fun u => pair u <$> page_text_of W u) [base_url]).
  { intros Hno. cbn. unfold page_text_of.
    destruct (driver_get W base_url) as [| |sp']; cbn;
      [now rewrite app_nil_r..|now destruct (Hno sp')]. }
  destruct (driver_get W base_url) as [| |sp] eqn:Hget.
  - inversion Hfin; subst. exists [base_url]. apply Hone, Hnone. discriminate.
  - inversion Hfin; subst. exists [base_url]. apply Hone, Hnone. discriminate.
  - cbn [visited_urls fetched_urls saved] in Hfin.
    apply (SiteFacts.for_links_preserves
             (fun s s' => exists new, site_effect W s s' new)) in Hfin.
    + destruct Hfin as (new & Hnew). exists ([base_url] ++ new).
      eapply site_effect_trans; [|exact Hnew]. apply Hone.
      cbn. unfold page_text_of. now rewrite Hget.
    + intros s. exists []. apply site_effect_refl.
    + intros s1 s2 s3 (n1 & H1) (n2 & H2). exists (n1 ++ n2).
      eapply site_effect_trans; eassumption.
    + intros l s s' Hl. eapply IH, Hl.
Qed.

Lemma scrape_site_hops fuel :
  forall base_url domain max_depth current_depth st st',
    final_state (scrape_site W fuel base_url domain max_depth current_depth st)
    = Some st' ->
    exists new,
      fetched_urls st' = fetched_urls st ++ new
      /\ Forall (fun v => exists n, Z.of_nat n <= max_depth - current_depth
                                    /\ hops W domain n base_url v) new.
Proof.
  induction fuel as [|fuel IH];
    intros base_url domain max_depth current_depth st st' Hfin; [discriminate|].
  cbn [scrape_site] in Hfin.
  destruct (bool_decide (base_url ∈ visited_urls st)); cbn [orb] in Hfin.
  { inversion Hfin; subst. exists []. now rewrite app_nil_r. }
  destruct (max_depth <? current_depth) eqn:Hdepth.
  { inversion Hfin; subst. exists []. now rewrite app_nil_r. }
  apply Z.ltb_ge in Hdepth.
  assert (Hbase : exists n, Z.of_nat n <= max_depth - current_depth
                            /\ hops W domain n base_url base_url).
  { exists 0%nat. split; [lia|constructor]. }
  destruct (driver_get W base_url) as [| |sp] eqn:Hget.
  - inversion Hfin; subst. exists [base_url]. split; [reflexivity|]. now constructor.
  - inversion Hfin; subst. exists [base_url]. split; [reflexivity|]. now constructor.
  - apply (for_links_log fetched_urls
             (fun v => exists n, Z.of_nat n <= max_depth - current_depth
                                 /\ hops W domain n base_url v)) in Hfin.
    + destruct Hfin as (new & Hlog & HQ). cbn [fetched_urls] in Hlog.
      exists (base_url :: new). split.
      * rewrite Hlog, <- app_assoc. reflexivity.
      * now constructor.
    + intros l s s' Hl Hfollow Hrun.
      destruct (IH _ _ _ _ _ _ Hrun) as (new & Hlog & HQ).
      exists new. split; [exact Hlog|].
      eapply Forall_impl; [exact HQ|]. intros v (n & Hn & Hh).
      exists (S n). split; [lia|]. now apply (hops_link W domain n base_url sp l v).
Qed.

(** A page reached by links is the start or passed the test of line 52. *)
Lemma hops_in_scope domain n u v :
  hops W domain n u v ->
  v = u \/ (is_valid_url W v = true /\ is_same_domain W v domain = true).
Proof.
  induction 1 as [u|n u sp href v Hget Hhref Hscope Hrest IH]; [now left|].
  right. destruct IH as [->|IH]; [|exact IH].
  unfold in_scope in Hscope. now apply andb_true_iff in Hscope.
Qed.

(** A call that returns has visited its URL, unless the depth bound cut
    it off. *)
Lemma scrape_site_visits fuel base_url domain max_depth current_depth st st' :
  scrape_site W fuel base_url domain max_depth current_depth st = Returned st' ->
  current_depth <= max_depth ->
  base_url ∈ visited_urls st'.
Proof.
  intros Hrun Hdepth.
  assert (Hfin : final_state
            (scrape_site W fuel base_url domain max_depth current_depth st)
            = Some st') by now rewrite Hrun.
  apply SiteFacts.scrape_site_run in Hfin as [Hsub _].
  destruct fuel as [|fuel]; [discriminate|]. cbn [scrape_site] in Hrun.
  destruct (bool_decide (base_url ∈ visited_urls st)) eqn:Hseen; cbn [orb] in Hrun.
  { inversion Hrun; subst. now apply bool_decide_eq_true in Hseen. }
  apply Z.ltb_ge in Hdepth. rewrite Hdepth in Hrun.
  destruct (driver_get W base_url) as [| |sp]; [| discriminate |].
  - inversion Hrun; subst. cbn. apply elem_of_union_l. now apply elem_of_singleton.
  - assert (Hfin : final_state (Returned st') = Some st') by reflexivity.
    rewrite <- Hrun in Hfin.
    apply (SiteFacts.for_links_preserves site_run SiteFacts.site_run_refl
             SiteFacts.site_run_trans) in Hfin.
    + destruct Hfin as [Hs _]. apply Hs. cbn. apply elem_of_union_l.
      now apply elem_of_singleton.
    + intros l s s' Hl. eapply SiteFacts.scrape_site_run, Hl.
Qed.

End WithWorld.
End SiteMore.

(** X1. Every URL that a run of [scrape_site] hands to the driver is
    reached from the URL of the call by a chain of links, each taken from
    a page that parsed and passing the test of line 52, and the chain is
    at most [max_depth - current_depth] links long. *)
Theorem X1_scrape_site_fetches_within_depth
    (W : world) (fuel : nat) (base_url domain : string)
    (max_depth current_depth : Z) (st st' : SiteScript.site_state) :
  final_state (SiteScript.scrape_site W fuel base_url domain max_depth
                                      current_depth st) = Some st' ->
  exists new,
    SiteScript.fetched_urls st' = SiteScript.fetched_urls st ++ new
    /\ forall v, v ∈ new ->
         exists n, Z.of_nat n <= max_depth - current_depth
                   /\ hops W domain n base_url v.
Proof.
  intros Hfin. apply SiteMore.scrape_site_hops in Hfin as (new & Hlog & HQ).
  exists new. split; [exact Hlog|]. now apply Forall_forall.
Qed.

Lemma X1_scrape_site_fetches_within_depth_witness :
  exists new,
    [Example.A; Example.B; Example.C] = [] ++ new
    /\ forall v, v ∈ new ->
         exists n, Z.of_nat n <= 3 - 0
                   /\ hops (Example.world_of Example.three_pages)
                           "www.site.test" n Example.A v.
Proof.
  apply (X1_scrape_site_fetches_within_depth
           (Example.world_of Example.three_pages) 5 Example.A "www.site.test"
           3 0 SiteScript.site_initial
           (SiteScript.SiteState {[Example.A; Example.B; Example.C]}
              [Example.A; Example.B; Example.C]
              [(Example.A, "page A"); (Example.B, "page B");
               (Example.C, "page C")])).
  vm_compute. reflexivity.
Defined.

(** X2. [scrape_site] stays in scope: a URL it fetches is the URL it was
    called with, or it passed both [is_valid_url] and [is_same_domain]
    for the domain of the crawl. *)
Theorem X2_scrape_site_stays_in_scope
    (W : world) (fuel : nat) (base_url domain : string)
    (max_depth current_depth : Z) (st st' : SiteScript.site_state) :
  final_state (SiteScript.scrape_site W fuel base_url domain max_depth
                                      current_depth st) = Some st' ->
  exists new,
    SiteScript.fetched_urls st' = SiteScript.fetched_urls st ++ new
    /\ forall v, v ∈ new ->
         v = base_url
         \/ (SiteScript.is_valid_url W v = true
             /\ SiteScript.is_same_domain W v domain = true).
Proof.
  intros Hfin. apply SiteMore.scrape_site_hops in Hfin as (new & Hlog & HQ).
  exists new. split; [exact Hlog|]. intros v Hv.
  rewrite Forall_forall in HQ. destruct (HQ v Hv) as (n & _ & Hh).
  now apply SiteMore.hops_in_scope in Hh.
Qed.

Lemma X2_scrape_site_stays_in_scope_witness :
  exists new,
    [Example.A; Example.B; Example.C] = [] ++ new
    /\ forall v, v ∈ new ->
         v = Example.A
         \/ (SiteScript.is_valid_url (Example.world_of Example.three_pages) v
             = true
             /\ SiteScript.is_same_domain
                  (Example.world_of Example.three_pages) v "www.site.test"
                = true).
Proof.
  apply (X2_scrape_site_stays_in_scope
           (Example.world_of Example.three_pages) 5 Example.A "www.site.test"
           3 0 SiteScript.site_initial
           (SiteScript.SiteState {[Example.A; Example.B; Example.C]}
              [Example.A; Example.B; Example.C]
              [(Example.A, "page A"); (Example.B, "page B");
               (Example.C, "page C")])).
  vm_compute. reflexivity.
Defined.

(** X4. A run of [scrape_site] adds to [visited_urls] exactly the URLs
    it fetched, and appends to the saved texts exactly the texts of the
    fetched pages that loaded and parsed, in the order of the fetches; a
    page that failed leaves no text. *)
Theorem X4_scrape_site_saves_what_it_parsed
    (W : world) (fuel : nat) (base_url domain : string)
    (max_depth current_depth : Z) (st st' : SiteScript.site_state) :
  final_state (SiteScript.scrape_site W fuel base_url domain max_depth
                                      current_depth st) = Some st' ->
  exists new,
    SiteScript.fetched_urls st' = SiteScript.fetched_urls st ++ new
    /\ SiteScript.visited_urls st'
       = SiteScript.visited_urls st ∪ list_to_set new
    /\ SiteScript.saved st'
       = SiteScript.saved st
         ++ omap (fun u => pair u <$> page_text_of W u) new.
Proof. apply SiteMore.scrape_site_effect. Qed.

Lemma X4_scrape_site_saves_what_it_parsed_witness :
  let st' :=
    SiteScript.SiteState {[Example.A; Example.B; Example.C]}
      [Example.A; Example.B; Example.C]
      [(Example.A, "page A"); (Example.C, "page C")] in
  exists new,
    SiteScript.fetched_urls st' = [] ++ new
    /\ SiteScript.visited_urls st' = ∅ ∪ list_to_set new
    /\ SiteScript.saved st'
       = [] ++ omap (fun u => pair u <$>
                       page_text_of (Example.world_of Example.b_unreachable) u)
                    new.
Proof.
  intros st'.
  apply (X4_scrape_site_saves_what_it_parsed
           (Example.world_of Example.b_unreachable) 5 Example.A
           "www.site.test" 3 0 SiteScript.site_initial st').
  vm_compute. reflexivity.
Defined.

(** X5. When [scrape_site] returns from an unvisited page that parsed
    and lies below the depth bound, every link of that page that passed
    the test of line 52 has been visited. *)
Theorem X5_scrape_site_visits_links_of_page
    (W : world) (fuel : nat) (base_url domain : string)
    (max_depth current_depth : Z) (st st' : SiteScript.site_state)
    (sp : soup) (href : string) :
  SiteScript.scrape_site W fuel base_url domain max_depth current_depth st
  = Returned st' ->
  base_url ∉ SiteScript.visited_urls st ->
  current_depth < max_depth ->
  driver_get W base_url = Parsed sp ->
  href ∈ a_hrefs sp ->
  in_scope W domain base_url href = true ->
  urljoin W base_url href ∈ SiteScript.visited_urls st'.
Proof.
  intros Hrun Hseen Hdepth Hget. revert href.
  destruct fuel as [|fuel]; [discriminate|]. cbn [SiteScript.scrape_site] in Hrun.
  rewrite (bool_decide_eq_false_2 _ Hseen) in Hrun. cbn [orb] in Hrun.
  assert (Hlt : (max_depth <? current_depth) = false) by (apply Z.ltb_ge; lia).
  rewrite Hlt, Hget in Hrun.
  apply (SiteMore.for_links_covers SiteScript.visited_urls (urljoin W base_url))
    in Hrun as [_ Hall].
  - intros href Hhref Hscope. now apply Hall.
  - intros l s s' Hl. eapply SiteMore.scrape_site_visits; [exact Hl|lia].
  - intros l s s' Hl.
    assert (Hfin : final_state
              (SiteScript.scrape_site W fuel (urljoin W base_url l) domain
                 max_depth (current_depth + 1) s) = Some s') by now rewrite Hl.
    now apply SiteFacts.scrape_site_run in Hfin as [Hsub _].
Qed.

Lemma X5_scrape_site_visits_links_of_page_witness :
  let W := Example.world_of Example.three_pages in
  let st' :=
    SiteScript.SiteState {[Example.A; Example.B; Example.C]}
      [Example.A; Example.B; Example.C]
      [(Example.A, "page A"); (Example.B, "page B"); (Example.C, "page C")] in
  urljoin W Example.A Example.C ∈ SiteScript.visited_urls st'.
Proof.
  intros W st'.
  apply (X5_scrape_site_visits_links_of_page W 5 Example.A "www.site.test"
           3 0 SiteScript.site_initial st'
           (Soup [("#intro", "Welcome"); ("about", "About us")]
                 [Example.B; Example.C] "page A")
           Example.C).
  - vm_compute. reflexivity.
  - apply not_elem_of_empty.
  - lia.
  - reflexivity.
  - cbn. apply elem_of_cons. right. apply elem_of_cons. now left.
  - vm_compute. reflexivity.
Defined.

(** ** app/crawler.py: the accumulated mapping *)

Module CrawlerMore.
Import Crawler.

Lemma dict_get_set_eq k v d : dict_get k (dict_set k v d) = Some v.
Proof.
  induction d as [|[k' v'] d IH]; cbn.
  - now rewrite decide_True.
  - destruct (decide (k = k')) as [->|Hne]; cbn.
    + now rewrite decide_True.
    + now rewrite decide_False.
Qed.

Lemma dict_get_set_ne k k' v d :
  k <> k' -> dict_get k' (dict_set k v d) = dict_get k' d.
Proof.
  intros Hne. induction d as [|[k0 v0] d IH]; cbn.
  - rewrite decide_False; [reflexivity|congruence].
  - destruct (decide (k = k0)) as [->|Hk]; cbn.
    + rewrite !decide_False; [reflexivity|congruence..].
    + destruct (decide (k' = k0)); [reflexivity|exact IH].
Qed.

Lemma dict_set_NoDup k v d : NoDup (keys d) -> NoDup (keys (dict_set k v d)).
Proof.
  unfold keys. induction d as [|[k' v'] d IH]; cbn; intros Hnd.
  - apply NoDup_singleton.
  - apply NoDup_cons in Hnd as [Hfresh Hnd].
    destruct (decide (k = k')) as [->|Hne]; cbn.
    + apply NoDup_cons. now split.
    + apply NoDup_cons. split; [|now apply IH].
      intros Hin. apply StoreFacts.keys_dict_set in Hin as [->|Hin];
        [now apply Hne|now apply Hfresh].
Qed.

Section WithWorld.
Context (W : world).

Lemma store_element_eq base_url d el :
  store_element W base_url d el
  = dict_set (stored_key W base_url el) (snd el) d.
Proof. reflexivity. Qed.

Lemma store_elements_NoDup base_url els d :
  NoDup (keys d) -> NoDup (keys (store_elements W base_url els d)).
Proof.
  unfold store_elements. revert d. induction els as [|el els IH]; intros d Hd;
    [exact Hd|].
  cbn [fold_left]. apply IH. rewrite store_element_eq. now apply dict_set_NoDup.
Qed.

(** Elements stored under other keys leave the text of [k] alone. *)
Lemma store_elements_other base_url els d k :
  (forall el, el ∈ els -> stored_key W base_url el <> k) ->
  dict_get k (store_elements W base_url els d) = dict_get k d.
Proof.
  unfold store_elements. revert d. induction els as [|el els IH]; intros d Hk;
    [reflexivity|].
  cbn [fold_left]. rewrite IH.
  - rewrite store_element_eq. apply dict_get_set_ne. apply Hk. now left.
  - intros el' Hel'. apply Hk. now right.
Qed.

(** The last element stored under a key decides its text. *)
Lemma store_elements_last base_url els1 el els2 d :
  (forall el', el' ∈ els2 ->
     stored_key W base_url el' <> stored_key W base_url el) ->
  dict_get (stored_key W base_url el)
           (store_elements W base_url (els1 ++ el :: els2) d)
  = Some (snd el).
Proof.
  intros Hlast. unfold store_elements. rewrite fold_left_app. cbn [fold_left].
  fold (store_elements W base_url els2
          (store_element W base_url (fold_left (store_element W base_url) els1 d) el)).
  rewrite store_elements_other by exact Hlast.
  rewrite store_element_eq. apply dict_get_set_eq.
Qed.

End WithWorld.
End CrawlerMore.

(** X6. [scrape_with_content] returns normally on every page: it hands
    at most the URL it was called with to the driver, whatever links the
    page holds, leaves that URL visited, and changes the mapping only
    when the page loaded and parsed. *)
Theorem X6_scrape_with_content_returns_after_one_page
    (W : world) (fuel : nat) (base_url : string) (st : Crawler.crawl_state) :
  (2 <= fuel)%nat ->
  exists st',
    Crawler.scrape_with_content W fuel
      [Crawler.VStr base_url; Crawler.VDriver] st = Returned st'
    /\ (Crawler.fetched st' = Crawler.fetched st
        \/ Crawler.fetched st' = Crawler.fetched st ++ [base_url])
    /\ base_url ∈ Crawler.visited st'
    /\ (Crawler.data_content st' = Crawler.data_content st
        \/ exists sp, driver_get W base_url = Parsed sp).
Proof.
  intros Hfuel. destruct fuel as [|[|fuel]]; [lia..|].
  rewrite CrawlerFacts.scrape_with_content_eq.
  destruct (decide (base_url ∈ Crawler.visited st)) as [Hin|Hin].
  - exists st. split; [reflexivity|]. split; [now left|]. split; [exact Hin|now left].
  - eexists. split; [reflexivity|]. unfold after_page.
    cbn [Crawler.fetched Crawler.visited Crawler.data_content].
    split; [now right|]. split.
    + apply elem_of_union_l. now apply elem_of_singleton.
    + destruct (driver_get W base_url) as [| |sp]; [now left..|right; now exists sp].
Qed.

Lemma X6_scrape_with_content_returns_after_one_page_witness :
  exists st',
    Crawler.scrape_with_content (Example.world_of Example.b_rejected) 2
      [Crawler.VStr Example.B; Crawler.VDriver] Crawler.crawl_initial
    = Returned st'
    /\ (Crawler.fetched st' = Crawler.fetched Crawler.crawl_initial
        \/ Crawler.fetched st'
           = Crawler.fetched Crawler.crawl_initial ++ [Example.B])
    /\ Example.B ∈ Crawler.visited st'
    /\ (Crawler.data_content st' = Crawler.data_content Crawler.crawl_initial
        \/ exists sp,
             driver_get (Example.world_of Example.b_rejected) Example.B
             = Parsed sp).
Proof.
  apply (X6_scrape_with_content_returns_after_one_page
           (Example.world_of Example.b_rejected) 2 Example.B
           Crawler.crawl_initial).
  lia.
Defined.

(** X7. The mapping [data_content] keeps its keys pairwise distinct
    across [scrape_with_content], and the last writer wins: when several
    elements of the page are stored under one key, the key holds the text
    of the last of them; a key under which no element of the page is
    stored keeps its text. *)
Theorem X7_data_content_last_writer_wins
    (W : world) (fuel : nat) (base_url : string) (st : Crawler.crawl_state)
    (els1 els2 : list (string * string)) (el : string * string) :
  (2 <= fuel)%nat ->
  NoDup (keys (Crawler.data_content st)) ->
  base_url ∉ Crawler.visited st ->
  page_elements W base_url = els1 ++ el :: els2 ->
  (forall el', el' ∈ els2 ->
     stored_key W base_url el' <> stored_key W base_url el) ->
  exists st',
    Crawler.scrape_with_content W fuel
      [Crawler.VStr base_url; Crawler.VDriver] st = Returned st'
    /\ NoDup (keys (Crawler.data_content st'))
    /\ dict_get (stored_key W base_url el) (Crawler.data_content st')
       = Some (snd el)
    /\ forall k,
         (forall el', el' ∈ els1 ++ el :: els2 ->
            stored_key W base_url el' <> k) ->
         dict_get k (Crawler.data_content st')
         = dict_get k (Crawler.data_content st).
Proof.
  intros Hfuel Hnd Hseen Hels Hlast. destruct fuel as [|[|fuel]]; [lia..|].
  rewrite CrawlerFacts.scrape_with_content_eq.
  rewrite decide_False by exact Hseen. eexists. split; [reflexivity|].
  unfold after_page. cbn [Crawler.data_content]. unfold page_elements in Hels.
  destruct (driver_get W base_url) as [| |sp];
    [now destruct els1..|]. rewrite Hels. split; [|split].
  - now apply CrawlerMore.store_elements_NoDup.
  - now apply CrawlerMore.store_elements_last.
  - intros k Hk. now apply CrawlerMore.store_elements_other.
Qed.

Lemma X7_data_content_last_writer_wins_witness :
  let W := Example.world_of Example.three_pages in
  exists st',
    Crawler.scrape_with_content W 2
      [Crawler.VStr Example.A; Crawler.VDriver] Crawler.crawl_initial
    = Returned st'
    /\ NoDup (keys (Crawler.data_content st'))
    /\ dict_get (stored_key W Example.A ("about", "About us"))
                (Crawler.data_content st')
       = Some (snd ("about", "About us"))
    /\ forall k,
         (forall el', el' ∈ [("#intro", "Welcome")] ++ ("about", "About us") :: [] ->
            stored_key W Example.A el' <> k) ->
         dict_get k (Crawler.data_content st')
         = dict_get k (Crawler.data_content Crawler.crawl_initial).
Proof.
  intros W.
  apply (X7_data_content_last_writer_wins W 2 Example.A Crawler.crawl_initial
           [("#intro", "Welcome")] [] ("about", "About us")).
  - lia.
  - constructor.
  - apply not_elem_of_empty.
  - reflexivity.
  - intros el' Hel'. now apply elem_of_nil in Hel'.
Defined.

(** ** app/chunker.py: order of the pieces *)

Module ChunkerMore.
Import Chunker.

Lemma filter_all {A : Type} (P : A -> Prop) `{forall x, Decision (P x)} l :
  Forall P l -> filter P l = l.
Proof.
  induction 1 as [|x l Hx Hl IH]; [reflexivity|].
  rewrite filter_cons, decide_True by exact Hx. now rewrite IH.
Qed.

Lemma filter_none {A : Type} (P : A -> Prop) `{forall x, Decision (P x)} l :
  Forall (fun x => ~ P x) l -> filter P l = [].
Proof.
  induction 1 as [|x l Hx Hl IH]; [reflexivity|].
  now rewrite filter_cons, decide_False by exact Hx.
Qed.

Section WithSplitter.
Context (split_text : Z -> Z -> string -> list string).

Lemma item_chunks_link size overlap item :
  Forall (fun c => data_link c = fst item)
         (item_chunks split_text size overlap item).
Proof.
  apply Forall_forall. intros c Hc.
  apply ChunkerFacts.elem_of_item_chunks in Hc as (i & piece & _ & ->).
  reflexivity.
Qed.

(** The texts of the chunks of one item are the pieces, in order. *)
Lemma item_chunks_content size overlap item :
  content <$> item_chunks split_text size overlap item
  = split_text size overlap (snd item).
Proof.
  apply list_eq. intros i. unfold item_chunks.
  rewrite list_lookup_fmap, list_lookup_imap.
  now destruct (split_text size overlap (snd item) !! i).
Qed.

Lemma all_chunks_of_link size overlap data link text :
  NoDup (keys data) -> (link, text) ∈ data ->
  filter (fun c => data_link c = link) (all_chunks split_text size overlap data)
  = item_chunks split_text size overlap (link, text).
Proof.
  unfold keys. induction data as [|item data IH]; intros Hnd Hin.
  - now apply elem_of_nil in Hin.
  - cbn [map] in Hnd. apply NoDup_cons in Hnd as [Hfresh Hnd].
    cbn [all_chunks flat_map]. rewrite filter_app.
    apply elem_of_cons in Hin as [<-|Hin].
    + rewrite filter_all by apply (item_chunks_link size overlap (link, text)).
      rewrite (filter_none _ (flat_map _ data)); [now rewrite app_nil_r|].
      apply Forall_forall. intros c Hc Hlink.
      apply (ChunkerFacts.elem_of_all_chunks split_text size overlap data)
        in Hc as (item' & Hitem' & Hc).
      pose proof (item_chunks_link size overlap item') as Hall.
      rewrite Forall_forall in Hall. apply Hall in Hc.
      apply Hfresh. cbn. rewrite <- Hlink, Hc.
      apply list_elem_of_In, in_map. now apply list_elem_of_In.
    + rewrite filter_none.
      * cbn [app]. now apply IH.
      * eapply Forall_impl; [apply item_chunks_link|].
        intros c Hc Hlink. apply Hfresh. rewrite <- Hc, Hlink.
        change link with (fst (link, text)).
        apply list_elem_of_In, in_map. now apply list_elem_of_In.
Qed.

End WithSplitter.
End ChunkerMore.

(** X9. The chunks of one link come out in the order of the splitter:
    when the keys of the dataset are pairwise distinct, the texts of the
    chunks that carry a link are exactly the pieces of the text stored
    under that link, first to last. *)
Theorem X9_chunks_of_link_are_pieces_in_order
    (split_text : Z -> Z -> string -> list string)
    (chunk_size chunk_overlap : Z) (data : list (string * string))
    (link text : string) :
  NoDup (keys data) ->
  (link, text) ∈ data ->
  content <$> filter (fun c => data_link c = link)
                     (Chunker.all_chunks split_text chunk_size chunk_overlap data)
  = split_text chunk_size chunk_overlap text.
Proof.
  intros Hnd Hin.
  rewrite (ChunkerMore.all_chunks_of_link split_text _ _ _ link text Hnd Hin).
  apply ChunkerMore.item_chunks_content.
Qed.

Lemma X9_chunks_of_link_are_pieces_in_order_witness :
  content <$> filter (fun c => data_link c = "https://x/a")
                     (Chunker.all_chunks Example.ex_split_text 15 3
                                         Example.one_page)
  = Example.ex_split_text 15 3 "Hello world. This is page A.".
Proof.
  apply (X9_chunks_of_link_are_pieces_in_order Example.ex_split_text 15 3
           Example.one_page "https://x/a" "Hello world. This is page A.").
  - apply NoDup_singleton.
  - now left.
Defined.

(** ** app/streamlit-chat.py: names, loading, caching, deleting *)

Module ChatMore.
Import Chat.

Lemma complete_link_keeps base_url c :
  chunk_id (complete_link base_url c) = chunk_id c
  /\ content (complete_link base_url c) = content c.
Proof.
  unfold complete_link.
  destruct (startswith (data_link c) "#"); [now split|].
  destruct (negb (startswith (data_link c) "http")); now split.
Qed.

Section WithEmbedding.
Context {vector : Type} (embed : string -> string -> vector).
Implicit Types st : app_state vector.

Lemma load_chunks_reads json_file_path base_url data st :
  files st !! json_file_path = Some (File (JsonChunks data)) ->
  load_chunks json_file_path base_url st
  = (Ok (map (complete_link base_url) data), st).
Proof.
  intros Hfile. unfold load_chunks.
  erewrite bind_ok by (apply path_exists_found; eauto). cbn [negb].
  erewrite bind_ok by (apply read_file_found; exact Hfile). reflexivity.
Qed.

Lemma load_chunks_missing json_file_path base_url st :
  files st !! json_file_path = None ->
  load_chunks json_file_path base_url st = (Ok [], st).
Proof.
  intros Hnone. unfold load_chunks.
  erewrite bind_ok by (apply path_exists_missing; exact Hnone). reflexivity.
Qed.

(** The store that [create_vector_store] answers is the one built from
    its chunks, whatever the disk holds. *)
Lemma create_vector_store_answer chunks m j st v path st' :
  create_vector_store embed chunks m j st = (Ok (v, path), st') ->
  v = built_store embed m chunks /\ path = index_path_of j m.
Proof.
  intros Hrun.
  apply ChatFacts.create_vector_store_done in Hrun as (_ & -> & -> & _).
  now split.
Qed.

End WithEmbedding.
End ChatMore.

(** X11. Once a call of [load_or_create_vector_store] has answered a
    store for a chunk file and a model, whether it built the store or
    read it, every later call for the same file and model answers that
    very store, computes no embedding and leaves the files as they are,
    whatever chunk list it is given: the chunks are consulted only when
    nothing is at the path of the index. *)
Theorem X11_later_calls_reuse_persisted_index
    {vector : Type} (embed : string -> string -> vector)
    (chunks chunks' : list chunk) (embedding_model_name json_file_path : string)
    (st st1 : app_state vector) (v : Chat.vector_store vector) :
  Chat.load_or_create_vector_store embed chunks embedding_model_name
                                   json_file_path st = (Ok v, st1) ->
  Chat.load_or_create_vector_store embed chunks' embedding_model_name
                                   json_file_path st1 = (Ok v, st1).
Proof.
  intros Hfirst. eapply ChatFacts.load_or_create_done, Hfirst.
Qed.

Lemma X11_later_calls_reuse_persisted_index_witness :
  let first :=
    Chat.load_or_create_vector_store Example.ex_embed Example.two_chunks
      Example.model_name Example.chunks_file Example.no_files in
  Chat.load_or_create_vector_store Example.ex_embed []
    Example.model_name Example.chunks_file (snd first)
  = (Ok (built_store Example.ex_embed Example.model_name Example.two_chunks),
     snd first).
Proof.
  intros first.
  apply (X11_later_calls_reuse_persisted_index Example.ex_embed
           Example.two_chunks [] Example.model_name Example.chunks_file
           Example.no_files (snd first)
           (built_store Example.ex_embed Example.model_name Example.two_chunks)).
  vm_compute. reflexivity.
Defined.

(** X12. An index name is ["faiss_index_"] followed by thirty-two
    lower-case hexadecimal digits, forty-four characters in all, so it
    holds no path separator and the index lies directly in
    [FAISS_INDEX_DIR]. *)
Theorem X12_index_name_shape (json_file_path embedding_model_name : string) :
  exists h,
    Chat.get_index_name json_file_path embedding_model_name
    = "faiss_index_" +:+ h
    /\ String.length h = 32%nat
    /\ Forall is_hex (list_ascii_of_string h)
    /\ String.length (Chat.get_index_name json_file_path embedding_model_name)
       = 44%nat
    /\ Os.dirname (Chat.index_path_of json_file_path embedding_model_name)
       = Chat.FAISS_INDEX_DIR.
Proof.
  exists (MD5.hexdigest (Chat.unique_string json_file_path embedding_model_name)).
  assert (Hlen : String.length
            (MD5.hexdigest (Chat.unique_string json_file_path embedding_model_name))
            = 32%nat).
  { unfold MD5.hexdigest. now rewrite HexFacts.hex_length, HexFacts.digest_length. }
  assert (Hhex : Forall is_hex (list_ascii_of_string
            (MD5.hexdigest (Chat.unique_string json_file_path embedding_model_name))))
    by apply HexFacts.hex_chars.
  split; [reflexivity|]. split; [exact Hlen|]. split; [exact Hhex|]. split.
  - unfold Chat.get_index_name. rewrite HexFacts.string_length_app, Hlen.
    reflexivity.
  - rewrite ChatFacts.index_path_of_eq. unfold Os.dirname.
    rewrite chars_app, rev_app_distr.
    rewrite HexFacts.drop_while_skip.
    + reflexivity.
    + apply Forall_rev. eapply Forall_impl; [exact Hhex|].
      intros c Hc. now rewrite (HexFacts.is_hex_not_slash c Hc).
Qed.

(** X13. [load_chunks] on a chunk file answers one chunk per record, in
    order, with the identifier and the text of the record, never changes
    the disk, and when the configured base URL starts with ["http"] every
    link it answers does too. *)
Theorem X13_load_chunks_completes_links
    {vector : Type} (json_file_path base_url : string) (data : list chunk)
    (st : app_state vector) :
  files st !! json_file_path = Some (File (JsonChunks data)) ->
  is_complete_url base_url = true ->
  exists loaded,
    Chat.load_chunks json_file_path base_url st = (Ok loaded, st)
    /\ map chunk_id loaded = map chunk_id data
    /\ map content loaded = map content data
    /\ Forall (fun c => is_complete_url (data_link c) = true) loaded.
Proof.
  intros Hfile Hbase. eexists.
  split; [apply ChatMore.load_chunks_reads; exact Hfile|].
  rewrite !map_map. split; [|split].
  - apply map_ext. intros c. apply (ChatMore.complete_link_keeps base_url c).
  - apply map_ext. intros c. apply (ChatMore.complete_link_keeps base_url c).
  - apply Forall_forall. intros c Hc. apply list_elem_of_In, in_map_iff in Hc
      as (c0 & <- & _).
    now apply StoreFacts.complete_link_complete.
Qed.

Lemma X13_load_chunks_completes_links_witness :
  let st : app_state nat :=
    AppState {[Example.chunks_file :=
                 File (JsonChunks [Chunk "#intro" "#intro_chunk_0" "Welcome";
                                   Chunk "/about" "/about_chunk_0" "About us"])]}
             [] in
  exists loaded,
    Chat.load_chunks Example.chunks_file "https://www.udelphi.com" st
    = (Ok loaded, st)
    /\ map chunk_id loaded = ["#intro_chunk_0"; "/about_chunk_0"]
    /\ map content loaded = ["Welcome"; "About us"]
    /\ Forall (fun c => is_complete_url (data_link c) = true) loaded.
Proof.
  intros st.
  apply (X13_load_chunks_completes_links Example.chunks_file
           "https://www.udelphi.com"
           [Chunk "#intro" "#intro_chunk_0" "Welcome";
            Chunk "/about" "/about_chunk_0" "About us"] st).
  - reflexivity.
  - reflexivity.
Defined.

(** X14. The button "Load Data & Create/Load Vector Store" stops before
    any embedding is computed when the chunk file is missing or holds no
    chunk (state [empty]), and otherwise, with nothing persisted yet
    (state [full]), builds the store from the chunks of the file with
    their links completed, embedding the text of each chunk once. *)
Theorem X14_load_button_stops_without_chunks
    {vector : Type} (embed : string -> string -> vector)
    (json_file_path base_url embedding_model_name : string)
    (data : list chunk) (empty full : app_state vector) :
  files empty !! json_file_path = None
  \/ files empty !! json_file_path = Some (File (JsonChunks [])) ->
  files full !! json_file_path = Some (File (JsonChunks data)) ->
  data <> [] ->
  nothing_at (files full)
             (Chat.index_path_of json_file_path embedding_model_name) ->
  (forall c, files full !! Chat.FAISS_INDEX_DIR <> Some (File c)) ->
  Scripts.load_button embed json_file_path base_url embedding_model_name empty
  = (Ok None, empty)
  /\ exists full',
       Scripts.load_button embed json_file_path base_url embedding_model_name
                           full
       = (Ok (Some (built_store embed embedding_model_name
                      (map (Chat.complete_link base_url) data))), full')
       /\ embedded full'
          = embedded full
            ++ map (fun c => (embedding_model_name, content c)) data.
Proof.
  intros Hempty Hfull Hdata Hnone Hroot. split.
  - unfold Scripts.load_button. destruct Hempty as [Hmiss|Hnil].
    + erewrite bind_ok by (apply ChatMore.load_chunks_missing; exact Hmiss).
      reflexivity.
    + erewrite bind_ok by (apply ChatMore.load_chunks_reads; exact Hnil).
      reflexivity.
  - unfold Scripts.load_button.
    erewrite bind_ok by (apply ChatMore.load_chunks_reads; exact Hfull).
    destruct data as [|c data]; [now destruct Hdata|]. cbn [map].
    erewrite bind_ok
      by (apply ChatFacts.load_or_create_builds; [discriminate|assumption..]).
    eexists. split; [reflexivity|]. cbn [embedded map].
    f_equal. f_equal.
    + now destruct (ChatMore.complete_link_keeps base_url c) as [_ ->].
    + rewrite !map_map. apply map_ext. intros c0.
      now destruct (ChatMore.complete_link_keeps base_url c0) as [_ ->].
Qed.

Lemma X14_load_button_stops_without_chunks_witness :
  let full : app_state nat :=
    AppState {[Example.chunks_file := File (JsonChunks Example.two_chunks)]} [] in
  Scripts.load_button Example.ex_embed Example.chunks_file
    "https://www.udelphi.com" Example.model_name Example.no_files
  = (Ok None, Example.no_files)
  /\ exists full',
       Scripts.load_button Example.ex_embed Example.chunks_file
         "https://www.udelphi.com" Example.model_name full
       = (Ok (Some (built_store Example.ex_embed Example.model_name
                      (map (Chat.complete_link "https://www.udelphi.com")
                           Example.two_chunks))), full')
       /\ embedded full'
          = embedded full
            ++ map (fun c => (Example.model_name, content c)) Example.two_chunks.
Proof.
  intros full.
  apply (X14_load_button_stops_without_chunks Example.ex_embed
           Example.chunks_file "https://www.udelphi.com" Example.model_name
           Example.two_chunks Example.no_files full).
  - left. apply lookup_empty.
  - reflexivity.
  - discriminate.
  - unfold nothing_at, full. cbn [files]. split_and!; vm_compute; reflexivity.
  - intros c. vm_compute. discriminate.
Defined.

(** X15. The delete button touches nothing but the path of the index:
    whatever it answers, every other path holds what it held before, the
    two files inside a saved index among them, and no embedding is
    computed. *)
Theorem X15_delete_touches_only_index_path
    {vector : Type} (json_file_path embedding_model_name : string)
    (st st' : app_state vector) (r : result Chat.notice) :
  Chat.delete_existing_vector_store json_file_path embedding_model_name st
  = (r, st') ->
  embedded st' = embedded st
  /\ (forall p,
        p <> Chat.index_path_of json_file_path embedding_model_name ->
        files st' !! p = files st !! p)
  /\ files st' !! Chat.faiss_file
                    (Chat.index_path_of json_file_path embedding_model_name)
     = files st !! Chat.faiss_file
                     (Chat.index_path_of json_file_path embedding_model_name)
  /\ files st' !! Chat.pkl_file
                    (Chat.index_path_of json_file_path embedding_model_name)
     = files st !! Chat.pkl_file
                     (Chat.index_path_of json_file_path embedding_model_name).
Proof.
  intros Hrun.
  destruct (ChatFacts.index_paths_distinct json_file_path embedding_model_name)
    as (_ & _ & _ & _ & _ & _ & D4 & D5 & _).
  unfold Chat.delete_existing_vector_store in Hrun. cbv zeta in Hrun, D4, D5.
  set (folder := Chat.index_path_of json_file_path embedding_model_name) in *.
  clearbody folder.
  assert (Hframe : embedded st' = embedded st
                   /\ forall p, p <> folder -> files st' !! p = files st !! p).
  { destruct (files st !! folder) as [[c|]|] eqn:E.
    - erewrite bind_ok in Hrun by (apply path_exists_found; eauto).
      cbv beta iota in Hrun.
      erewrite bind_ok in Hrun by (eapply remove_file; exact E).
      inversion Hrun; subst. cbn [files embedded]. split; [reflexivity|].
      intros p Hp. now rewrite lookup_delete_ne.
    - erewrite bind_ok in Hrun by (apply path_exists_found; eauto).
      cbv beta iota in Hrun.
      erewrite bind_err in Hrun by (apply remove_dir; exact E).
      inversion Hrun; subst. now split.
    - erewrite bind_ok in Hrun by (apply path_exists_missing; exact E).
      inversion Hrun; subst. now split. }
  destruct Hframe as [Hlog Hother]. split; [exact Hlog|].
  split; [exact Hother|]. split; now apply Hother.
Qed.

Lemma X15_delete_touches_only_index_path_witness :
  let folder := Chat.index_path_of Example.chunks_file Example.model_name in
  let st : app_state nat :=
    AppState (<[folder := File (Raw "not an index")]> ∅) [] in
  let st' : app_state nat := AppState (delete folder (files st)) [] in
  embedded st' = embedded st
  /\ (forall p, p <> folder -> files st' !! p = files st !! p)
  /\ files st' !! Chat.faiss_file folder = files st !! Chat.faiss_file folder
  /\ files st' !! Chat.pkl_file folder = files st !! Chat.pkl_file folder.
Proof.
  intros folder st st'.
  apply (X15_delete_touches_only_index_path Example.chunks_file
           Example.model_name st st'
           (Ok (Chat.Success "Existing FAISS vector store deleted."))).
  apply (ChatFacts.delete_regular_file Example.model_name Example.chunks_file
           (Raw "not an index") st).
  apply lookup_insert_eq.
Defined.

(** X16. The three programs fit together.  The crawler script dumps
    [data_content], a mapping with pairwise distinct keys, to the very
    path that the chunker script reads; the chunker script writes the
    file that [load_chunks] reads by default; and the chunks loaded in
    the end carry the pieces of the crawled texts under pairwise distinct
    identifiers. *)
Theorem X16_crawler_chunker_and_loader_compose
    {vector : Type} (W : world) (split_text : Z -> Z -> string -> list string)
    (fuel : nat) (base_url : string) (disk : app_state vector) :
  (2 <= fuel)%nat ->
  (forall c, files disk !! Scripts.crawler_output_dir <> Some (File c)) ->
  files disk !! Scripts.chunker_input_path <> Some Dir ->
  files disk !! Scripts.chunker_output_path <> Some Dir ->
  let data :=
    Crawler.data_content
      (after_page W Scripts.crawler_start_url Crawler.crawl_initial) in
  exists disk1 disk2 loaded,
    Scripts.crawler_main W fuel disk = Some (Ok (length data), disk1)
    /\ NoDup (keys data)
    /\ Scripts.chunker_main split_text disk1 = (Ok (length loaded), disk2)
    /\ Chat.load_chunks Scripts.chunker_output_path base_url disk2
       = (Ok loaded, disk2)
    /\ map content loaded
       = map content (Chunker.all_chunks split_text 5000 50 data)
    /\ NoDup (map chunk_id loaded).
Proof.
  intros Hfuel Hdir Hin Hout data.
  assert (Hnd : NoDup (keys data)).
  { unfold data, after_page. cbn [Crawler.data_content Crawler.crawl_initial].
    destruct (driver_get W Scripts.crawler_start_url) as [| |sp];
      [constructor..|].
    apply CrawlerMore.store_elements_NoDup. constructor. }
  assert (Hpath : Scripts.crawler_output_file = Scripts.chunker_input_path)
    by reflexivity.
  assert (Hparent : Os.dirname Scripts.chunker_output_path
                    = Scripts.crawler_output_dir) by reflexivity.
  set (disk1 := AppState
         (<[Scripts.chunker_input_path := File (JsonDataset data)]>
            (<[Scripts.crawler_output_dir := Dir]> (files disk)))
         (embedded disk)).
  assert (Hcrawl : Scripts.crawler_main W fuel disk
                   = Some (Ok (length data), disk1)).
  { unfold Scripts.crawler_main. destruct fuel as [|[|fuel]]; [lia..|].
    rewrite CrawlerFacts.scrape_with_content_eq.
    rewrite decide_False by apply not_elem_of_empty.
    fold data. rewrite Hpath. f_equal.
    erewrite bind_ok
      by (apply makedirs_ok; [discriminate|reflexivity|exact Hdir]).
    erewrite bind_ok.
    2:{ apply write_file_ok; [discriminate|]. cbn [files].
        rewrite lookup_insert_ne by discriminate. exact Hin. }
    reflexivity. }
  assert (Habove : Os.ancestors Scripts.crawler_output_dir = [])
    by reflexivity.
  assert (Hwr : writable (files disk1) Scripts.chunker_output_path).
  { unfold writable. rewrite Hparent, Habove. unfold disk1. cbn [files].
    split_and!.
    - intros H. apply list_elem_of_In in H. vm_compute in H.
      repeat (destruct H as [H|H]; [discriminate H|]). exact H.
    - discriminate.
    - intros H. apply list_elem_of_singleton in H. discriminate H.
    - constructor; [|constructor].
      intros p. rewrite lookup_insert_ne by discriminate.
      rewrite lookup_insert_eq. discriminate.
    - rewrite !lookup_insert_ne by discriminate. exact Hout. }
  pose proof (ChunkerFacts.chunk_content_writes split_text
                Scripts.chunker_input_path Scripts.chunker_output_path
                5000 50 data disk1 (lookup_insert_eq _ _ _) eq_refl Hwr)
    as Hchunk.
  cbv zeta in Hchunk.
  eexists disk1, _, (map (Chat.complete_link base_url)
                         (Chunker.all_chunks split_text 5000 50 data)).
  split; [exact Hcrawl|]. split; [exact Hnd|]. split.
  { unfold Scripts.chunker_main. rewrite length_map. exact Hchunk. }
  split.
  { apply ChatMore.load_chunks_reads. cbn [files]. apply lookup_insert_eq. }
  assert (Hids : map chunk_id (map (Chat.complete_link base_url)
                   (Chunker.all_chunks split_text 5000 50 data))
                 = chunk_id <$> Chunker.all_chunks split_text 5000 50 data).
  { rewrite map_map. apply map_ext. intros c.
    apply (ChatMore.complete_link_keeps base_url c). }
  split.
  - rewrite map_map. apply map_ext. intros c.
    apply (ChatMore.complete_link_keeps base_url c).
  - rewrite Hids. now apply ChunkerFacts.all_chunks_NoDup.
Qed.

Lemma X16_crawler_chunker_and_loader_compose_witness :
  let W := World
             (fun u => if bool_decide (u = Scripts.crawler_start_url) then
                         Parsed (Soup [("#services", "What we do")] [] "home")
                       else FetchFails)
             Example.ex_urljoin Example.ex_netloc Example.ex_scheme
             Example.ex_domain Example.ex_suffix in
  let data :=
    Crawler.data_content
      (after_page W Scripts.crawler_start_url Crawler.crawl_initial) in
  exists disk1 disk2 loaded,
    Scripts.crawler_main W 2 Example.no_files = Some (Ok (length data), disk1)
    /\ NoDup (keys data)
    /\ Scripts.chunker_main Example.ex_split_text disk1
       = (Ok (length loaded), disk2)
    /\ Chat.load_chunks Scripts.chunker_output_path "https://www.udelphi.com"
                        disk2
       = (Ok loaded, disk2)
    /\ map content loaded
       = map content (Chunker.all_chunks Example.ex_split_text 5000 50 data)
    /\ NoDup (map chunk_id loaded).
Proof.
  intros W.
  apply (X16_crawler_chunker_and_loader_compose W Example.ex_split_text 2
           "https://www.udelphi.com" Example.no_files).
  - lia.
  - intros c. cbn [files Example.no_files]. rewrite lookup_empty. discriminate.
  - cbn [files Example.no_files]. rewrite lookup_empty. discriminate.
  - cbn [files Example.no_files]. rewrite lookup_empty. discriminate.
Defined.

(** X17. The store that [create_vector_store] answers is aligned with
    its chunk list: it holds one vector and one document per chunk, and
    at every position the vector is the embedding of the chunk's text and
    the document carries that text with the chunk's link and identifier;
    the path it answers is the path of the fingerprint. *)
Theorem X17_created_store_is_aligned_with_chunks
    {vector : Type} (embed : string -> string -> vector)
    (chunks : list chunk) (embedding_model_name json_file_path : string)
    (st st' : app_state vector) (v : Chat.vector_store vector)
    (path : string) :
  Chat.create_vector_store embed chunks embedding_model_name json_file_path st
  = (Ok (v, path), st') ->
  path = Chat.index_path_of json_file_path embedding_model_name
  /\ length (Chat.index_vectors v) = length chunks
  /\ length (Chat.docstore v) = length chunks
  /\ forall i c, chunks !! i = Some c ->
       Chat.index_vectors v !! i = Some (embed embedding_model_name (content c))
       /\ Chat.docstore v !! i
          = Some (Document (content c) (data_link c) (chunk_id c)).
Proof.
  intros Hrun. apply ChatMore.create_vector_store_answer in Hrun as [-> ->].
  split; [reflexivity|]. unfold built_store.
  cbn [Chat.index_vectors Chat.docstore].
  rewrite !length_map. split; [reflexivity|]. split; [reflexivity|].
  intros i c Hc. rewrite map_map.
  change (map ?f chunks !! i) with ((f <$> chunks) !! i).
  split.
  - change (map (fun x => embed embedding_model_name (content x)) chunks)
      with ((fun x => embed embedding_model_name (content x)) <$> chunks).
    now rewrite list_lookup_fmap, Hc.
  - change (map (fun c0 => Document (content c0) (data_link c0) (chunk_id c0))
                chunks)
      with ((fun c0 => Document (content c0) (data_link c0) (chunk_id c0))
              <$> chunks).
    now rewrite list_lookup_fmap, Hc.
Qed.

Lemma X17_created_store_is_aligned_with_chunks_witness :
  let v := built_store Example.ex_embed Example.model_name Example.two_chunks in
  Chat.index_path_of Example.chunks_file Example.model_name
  = Chat.index_path_of Example.chunks_file Example.model_name
  /\ length (Chat.index_vectors v) = length Example.two_chunks
  /\ length (Chat.docstore v) = length Example.two_chunks
  /\ forall i c, Example.two_chunks !! i = Some c ->
       Chat.index_vectors v !! i
       = Some (Example.ex_embed Example.model_name (content c))
       /\ Chat.docstore v !! i
          = Some (Document (content c) (data_link c) (chunk_id c)).
Proof.
  intros v.
  apply (X17_created_store_is_aligned_with_chunks Example.ex_embed
           Example.two_chunks Example.model_name Example.chunks_file
           Example.no_files
           (AppState (files_after_build Example.ex_embed ∅ Example.two_chunks
                        Example.model_name Example.chunks_file)
                     ([] ++ map (fun t => (Example.model_name, t))
                                (map content Example.two_chunks)))
           v (Chat.index_path_of Example.chunks_file Example.model_name)).
  apply ChatFacts.create_vector_store_builds.
  - discriminate.
  - repeat split; apply lookup_empty.
  - intros c. cbn [files Example.no_files]. rewrite lookup_empty. discriminate.
Defined.
